(** * The agent manager of the Cheshire Cat core

    A shallow embedding of [cat/looking_glass/agent_manager.py]: the three
    methods of [AgentManager] ([execute_tool_agent], [execute_memory_chain],
    [execute_agent]) as computations in a state-and-exception monad over a
    store of Python dicts.  The collaborators the methods call but do not
    define (the hooks of the mad hatter, the agent executor and the LLM chain
    of the library) are parameters. *)

From Stdlib Require Import Ascii String.
From stdpp Require Import gmap strings list fin_maps.

Local Open Scope string_scope.
Local Open Scope list_scope.

(** ** Python values, dicts and the store *)

(** One entry of the agent's scratchpad: the action taken (tool name and
    tool input) and the observation that came back. *)
Record ScratchpadEntry := {
  action : string * string;
  observation : string
}.

(** The values the dicts of this module hold: text, or a list of
    scratchpad entries (the [intermediate_steps] of an agent run). *)
Inductive value :=
| VStr (s : string)
| VSteps (steps : list ScratchpadEntry).

#[global] Instance ScratchpadEntry_eq_dec : EqDecision ScratchpadEntry.
Proof. solve_decision. Defined.
#[global] Instance value_eq_dec : EqDecision value.
Proof. solve_decision. Defined.

(** Python's [a != b] on values. *)
Definition value_neqb (a b : value) : bool := bool_decide (a ≠ b).

(** Dicts are objects: a variable holds a reference, and two variables may
    hold the same one. *)
Abbreviation loc := positive.
Abbreviation Dict := (gmap string value).
Abbreviation Heap := (gmap loc (gmap string value)).

(** ** Exceptions and the monad *)

Inductive exn :=
| KeyError (key : string)
| TypeError (message : string)
| UnboundLocalError (variable : string)
| Raised (kind message : string).

Inductive outcome (A : Type) :=
| Returns (a : A)
| Raises (e : exn).
Arguments Returns {A} a.
Arguments Raises {A} e.

(** A computation reads and writes the store, returns or raises, and emits
    events of type [E] (its observable calls), in order. *)
Definition M (E A : Type) : Type := Heap → outcome A * Heap * list E.

Definition ret {E A} (a : A) : M E A := λ h, (Returns a, h, []).

Definition raise {E A} (e : exn) : M E A := λ h, (Raises e, h, []).

Definition bind {E A B} (m : M E A) (k : A → M E B) : M E B :=
  λ h, match m h with
       | (Returns a, h1, t1) =>
           match k a h1 with
           | (r, h2, t2) => (r, h2, t1 ++ t2)
           end
       | (Raises e, h1, t1) => (Raises e, h1, t1)
       end.

Definition emit {E} (ev : E) : M E unit := λ h, (Returns tt, h, [ev]).

Notation "'let!' x ':=' m 'in' k" := (bind m (fun x => k))
  (at level 10, x name, m at level 100, k at level 200,
   format "'[v' 'let!'  x  ':='  m  'in' '/' k ']'").
Notation "'do!' m 'in' k" := (bind m (fun _ => k))
  (at level 10, m at level 100, k at level 200,
   format "'[v' 'do!'  m  'in' '/' k ']'").

(** [d[key]] on the dict behind a reference. *)
Definition getitem {E} (d : loc) (key : string) : M E value :=
  λ h, match h !! d with
       | Some m =>
           match m !! key with
           | Some v => (Returns v, h, [])
           | None => (Raises (KeyError key), h, [])
           end
       | None => (Raises (TypeError "object is not subscriptable"), h, [])
       end.

(** [d[key] = v]: an update in place, seen through every alias of [d]. *)
Definition setitem {E} (d : loc) (key : string) (v : value) : M E unit :=
  λ h, match h !! d with
       | Some m => (Returns tt, <[d := <[key := v]> m]> h, [])
       | None =>
           (Raises (TypeError "object does not support item assignment"), h, [])
       end.

(** A collaborator that emits no event of ours. *)
Definition silent {E A} (f : Heap → outcome A * Heap) : M E A :=
  λ h, match f h with (r, h1) => (r, h1, []) end.

(** ** The objects the source builds *)

(** A tool as the agent sees it: a name, a description and a callable from
    text to text, which may fail and may touch the store. *)
Record Tool := {
  name : string;
  description : string;
  invoke : string → Heap → outcome string * Heap
}.

(** [ToolPromptTemplate(template=..., tools=..., input_variables=...)] *)
Record ToolPromptTemplate := {
  tool_template : string;
  tool_template_tools : list Tool;
  tool_input_variables : list string
}.

(** [PromptTemplate(template=..., input_variables=...)] *)
Record PromptTemplate := {
  template : string;
  input_variables : list string
}.

Inductive Prompt :=
| ToolPrompt (p : ToolPromptTemplate)
| PlainPrompt (p : PromptTemplate).

(** [LLMChain(prompt=..., llm=self.cat.llm, verbose=...)]; the language
    model is the one of the cat, the same for every chain. *)
Record LLMChain := {
  prompt : Prompt;
  chain_verbose : bool
}.

Inductive OutputParser := ToolOutputParser.

(** [LLMSingleActionAgent(llm_chain=..., output_parser=..., stop=...,
    allowed_tools=..., verbose=...)] *)
Record LLMSingleActionAgent := {
  llm_chain : LLMChain;
  output_parser : OutputParser;
  stop : list string;
  allowed_tools : list string;
  agent_verbose : bool
}.

(** [AgentExecutor.from_agent_and_tools(agent=..., tools=...,
    return_intermediate_steps=..., verbose=...)] *)
Record AgentExecutor := {
  agent : LLMSingleActionAgent;
  tools : list Tool;
  return_intermediate_steps : bool;
  executor_verbose : bool
}.

(** What one cycle of an agent run does that others can see: a completion
    requested from the language model with its stop sequences, a text
    handed to the parser, a tool called with its input. *)
Inductive LoopEvent :=
| Completion (prompt_text : string) (stop_sequences : list string)
| Parsing (text : string)
| Invocation (tool_name tool_input : string).

(** The observable calls of the agent manager. *)
Inductive Event :=
| Log (message level : string)
| AgentExecutorCall (executor : AgentExecutor) (inputs : loc)
    (cycles : list LoopEvent)
| LLMChainCall (chain : LLMChain) (inputs : loc).

(** [log(message, level)] *)
Definition log (message level : string) : M Event unit :=
  emit (Log message level).

(** The hooks [execute_agent] asks the mad hatter for, each at the type the
    source uses its result at.  A hook is plugin code: it may fail and may
    touch the store. *)
Record MadHatter := {
  agent_prompt_prefix : Heap → outcome string * Heap;
  agent_prompt_instructions : Heap → outcome string * Heap;
  agent_prompt_suffix : Heap → outcome string * Heap;
  before_agent_creates_prompt :
    list string → string → Heap → outcome (list string) * Heap;
  agent_allowed_tools : Heap → outcome (list Tool) * Heap
}.

(** The two calls into the library: running an agent executor and running a
    chain on a dict of inputs.  Each returns a reference to a dict or
    raises; the executor also reports the cycles it went through. *)
Record Library := {
  call_agent_executor : AgentExecutor → loc → M LoopEvent loc;
  call_llm_chain : LLMChain → loc → Heap → outcome loc * Heap
}.

(** ** Text constants *)

Definition newline : string := String "010"%char EmptyString.
Definition quote : string := String "034"%char EmptyString.

(** [" ".join(parts)] *)
Definition join (sep : string) (parts : list string) : string :=
  String.concat sep parts.

(** The literal template of [execute_tool_agent], lines 33 to 50. *)
Definition TOOL_AGENT_TEMPLATE : string :=
  join newline [
    "Answer the following question: `{input}`";
    "You can only reply using these tools:";
    "";
    "{tools}";
    "";
    "If no tool is useful, just reply " +:+ quote +:+ "Final Answer: ?" +:+ quote;
    "If you want to use a tool, use the following format:";
    "";
    "Action: the name of the action to take, should be one of [{tool_names}]";
    "Action Input: the input to the action";
    "Observation: the result of the action";
    "... (this Action/Action Input/Observation can repeat N times)";
    "Final Answer: the final answer to the original input question (or "
      +:+ quote +:+ "?" +:+ quote +:+ " if no tool is adapt)";
    "";
    "Begin!";
    "";
    "Question: {input}";
    "{agent_scratchpad}"
  ].

(** The stop sequence of the agent, line 67. *)
Definition OBSERVATION_MARKER : string := newline +:+ "Observation:".

(** ** The agent manager *)

(** [agent_executor(agent_input)]: the run shows up as one event that
    carries the cycles the executor reports. *)
Definition run_executor (library : Library)
    (agent_executor : AgentExecutor) (inputs : loc) : M Event loc :=
  λ h, match call_agent_executor library agent_executor inputs h with
       | (r, h1, cycles) =>
           (r, h1, [AgentExecutorCall agent_executor inputs cycles])
       end.

(** [chain(inputs)] *)
Definition run_chain (library : Library)
    (chain : LLMChain) (inputs : loc) : M Event loc :=
  λ h, match call_llm_chain library chain inputs h with
       | (r, h1) => (r, h1, [LLMChainCall chain inputs])
       end.

Section AgentManager.

(** [self.cat.mad_hatter], and the library with [self.cat.llm] behind it. *)
Variable mad_hatter : MadHatter.
Variable library : Library.

(** Lines 28 to 81. *)
Definition execute_tool_agent
    (agent_input : loc) (allowed_tools : list Tool) : M Event loc :=
  let allowed_tools_names := map name allowed_tools in
  let prompt := {|
    tool_template := TOOL_AGENT_TEMPLATE;
    tool_template_tools := allowed_tools;
    tool_input_variables := ["input"; "intermediate_steps"]
  |} in
  do! log "Using prompt" "INFO" in
  do! log (tool_template prompt) "INFO" in
  let agent_chain := {| prompt := ToolPrompt prompt; chain_verbose := true |} in
  let agent := {|
    llm_chain := agent_chain;
    output_parser := ToolOutputParser;
    stop := [OBSERVATION_MARKER];
    allowed_tools := allowed_tools_names;
    agent_verbose := true
  |} in
  let agent_executor := {|
    agent := agent;
    tools := allowed_tools;
    return_intermediate_steps := true;
    executor_verbose := true
  |} in
  let! out := run_executor library agent_executor agent_input in
  ret out.

(** Lines 84 to 108. *)
Definition execute_memory_chain
    (agent_input : loc) (prompt_prefix prompt_suffix : string)
    : M Event loc :=
  let memory_prompt := {|
    template := prompt_prefix +:+ prompt_suffix;
    input_variables :=
      ["input"; "chat_history"; "episodic_memory"; "declarative_memory"]
  |} in
  let memory_chain :=
    {| prompt := PlainPrompt memory_prompt; chain_verbose := true |} in
  let! out := run_chain library memory_chain agent_input in
  let! text := getitem out "text" in
  do! setitem out "output" text in
  ret out.

(** Lines 141 to 149: the choice between the two paths, given what lines
    124 to 139 gathered.  The local [out] is unbound until one of the two
    calls assigns it. *)
Definition choose_answer
    (agent_input : loc) (prompt_prefix prompt_suffix : string)
    (allowed_tools : list Tool) : M Event loc :=
  let tools_are_enough := false in
  let! after_tools :=
    (if bool_decide (0 < length allowed_tools) then
       let! out := execute_tool_agent agent_input allowed_tools in
       let! output := getitem out "output" in
       ret (Some out, value_neqb output (VStr "?"))
     else ret (None, tools_are_enough)) in
  let out := fst after_tools in
  let tools_are_enough := snd after_tools in
  if negb tools_are_enough then
    let! out := execute_memory_chain agent_input prompt_prefix prompt_suffix in
    ret out
  else
    match out with
    | Some out => ret out
    | None => raise (UnboundLocalError "out")
    end.

(** Lines 111 to 149. *)
Definition execute_agent (agent_input : loc) : M Event loc :=
  let! prompt_prefix := silent (agent_prompt_prefix mad_hatter) in
  let! prompt_format_instructions :=
    silent (agent_prompt_instructions mad_hatter) in
  let! prompt_suffix := silent (agent_prompt_suffix mad_hatter) in
  let input_variables := [
    "input";
    "chat_history";
    "episodic_memory";
    "declarative_memory";
    "agent_scratchpad"
  ] in
  let! input_variables :=
    silent (before_agent_creates_prompt mad_hatter input_variables
              (join " " [prompt_prefix; prompt_format_instructions;
                         prompt_suffix])) in
  let! allowed_tools := silent (agent_allowed_tools mad_hatter) in
  choose_answer agent_input prompt_prefix prompt_suffix allowed_tools.

End AgentManager.

(** ** The action/observation cycle of the executor *)

(** A completion parsed: the tool to call with its input, or the answer. *)
Inductive ParsedStep :=
| ToolCall (tool_name tool_input : string)
| FinalAnswer (text : string).

(** What a cycle is made of and this repository leaves to others: the
    rendering of the agent's prompt over the inputs and the scratchpad, the
    completion service, the parser of completions, and the iteration cap. *)
Record LoopParts := {
  render : Prompt → Dict → list ScratchpadEntry → outcome string;
  complete : string → list string → Heap → outcome string * Heap;
  parse : list string → string → outcome ParsedStep;
  max_iterations : nat
}.

Definition message_of (e : exn) : string :=
  match e with
  | KeyError key => key
  | TypeError message => message
  | UnboundLocalError variable => variable
  | Raised _ message => message
  end.

Definition now {E A} (r : outcome A) : M E A := λ h, (r, h, []).

(** A completion request, as the service sees it. *)
Definition request (parts : LoopParts)
    (prompt_text : string) (stop_sequences : list string)
    : M LoopEvent string :=
  λ h, match complete parts prompt_text stop_sequences h with
       | (r, h1) => (r, h1, [Completion prompt_text stop_sequences])
       end.

(** The parser applied to a text. *)
Definition parsing (parts : LoopParts) (tool_names : list string)
    (text : string) : M LoopEvent ParsedStep :=
  λ h, (parse parts tool_names text, h, [Parsing text]).

(** A tool call whose failure is caught: the result, or the message of the
    error. *)
Definition dispatch (registry : list Tool) (tool_name tool_input : string)
    : M LoopEvent (string + string) :=
  match find (λ t, bool_decide (name t = tool_name)) registry with
  | Some t =>
      λ h, match invoke t tool_input h with
           | (Returns text, h1) =>
               (Returns (inl text), h1, [Invocation tool_name tool_input])
           | (Raises e, h1) =>
               (Returns (inr (message_of e)), h1,
                [Invocation tool_name tool_input])
           end
  | None => ret (inr ("UnknownToolError: " +:+ tool_name))
  end.

(** Modelled from the spec: the Tool-Agent Loop of section 4.3, which the
    source hands to the agent executor and whose code is not under src/.
    Each cycle renders the prompt, requests a completion with the stop
    sequences of the agent, and parses it.  A final answer ends the run
    with the scratchpad so far; a tool call is dispatched and its
    observation appended, a failure being observed as its message unless
    the same tool failed with the same message in the cycle before, which
    ends the run with ToolLoopStuckError.  When the budget of cycles is
    used up the run ends with the sentinel and the scratchpad. *)
Fixpoint cycle (parts : LoopParts) (agent_executor : AgentExecutor)
    (inputs : Dict) (budget : nat) (scratchpad : list ScratchpadEntry)
    (last_failure : option (string * string))
    : M LoopEvent (string * list ScratchpadEntry) :=
  match budget with
  | O => ret ("?", scratchpad)
  | S budget =>
      let the_agent := agent agent_executor in
      let! prompt_text :=
        now (render parts (prompt (llm_chain the_agent)) inputs scratchpad) in
      let! text := request parts prompt_text (stop the_agent) in
      let! step := parsing parts (allowed_tools the_agent) text in
      match step with
      | FinalAnswer answer => ret (answer, scratchpad)
      | ToolCall tool_name tool_input =>
          let! result := dispatch (tools agent_executor) tool_name tool_input in
          match result with
          | inl text =>
              cycle parts agent_executor inputs budget
                (scratchpad ++
                 [{| action := (tool_name, tool_input); observation := text |}])
                None
          | inr message =>
              if bool_decide (last_failure = Some (tool_name, message)) then
                raise (Raised "ToolLoopStuckError" message)
              else
                cycle parts agent_executor inputs budget
                  (scratchpad ++
                   [{| action := (tool_name, tool_input);
                       observation := message |}])
                  (Some (tool_name, message))
          end
      end
  end.

(** A new dict in the store. *)
Definition alloc {E} (d : Dict) : M E loc :=
  λ h, let l := fresh (dom h) in (Returns l, <[l := d]> h, []).

(** Modelled from the spec: [run(agent_input, tools) -> AgentOutput] of
    section 4.3, a new record with the output and the scratchpad of the
    run. *)
Definition tool_agent_loop (parts : LoopParts)
    (agent_executor : AgentExecutor) (inputs : loc) : M LoopEvent loc :=
  λ h, match h !! inputs with
       | Some d =>
           (let! run := cycle parts agent_executor d (max_iterations parts)
                          [] None in
            alloc {[ "output" := VStr (fst run);
                     "intermediate_steps" := VSteps (snd run) ]}) h
       | None => (Raises (TypeError "inputs is not a dict"), h, [])
       end.

(** A chain as the library documents it: one completion over the rendered
    prompt, and a new dict with the inputs and, under [text], the
    completion. *)
Definition completion_chain (parts : LoopParts)
    (chain : LLMChain) (inputs : loc) : Heap → outcome loc * Heap :=
  λ h, match h !! inputs with
       | Some d =>
           match render parts (prompt chain) d [] with
           | Returns prompt_text =>
               match complete parts prompt_text [] h with
               | (Returns text, h1) =>
                   let l := fresh (dom h1) in
                   (Returns l, <[l := <["text" := VStr text]> d]> h1)
               | (Raises e, h1) => (Raises e, h1)
               end
           | Raises e => (Raises e, h)
           end
       | None => (Raises (TypeError "inputs is not a dict"), h)
       end.

(** The library with the cycle above for executor. *)
Definition loop_library (parts : LoopParts) : Library := {|
  call_agent_executor := tool_agent_loop parts;
  call_llm_chain := completion_chain parts
|}.

(** ** Vocabulary of the statements *)

(** The executor [execute_tool_agent] builds for a list of tools. *)
Definition tool_agent_executor (allowed_tools : list Tool) : AgentExecutor := {|
  agent := {|
    llm_chain := {|
      prompt := ToolPrompt {|
        tool_template := TOOL_AGENT_TEMPLATE;
        tool_template_tools := allowed_tools;
        tool_input_variables := ["input"; "intermediate_steps"]
      |};
      chain_verbose := true
    |};
    output_parser := ToolOutputParser;
    stop := [OBSERVATION_MARKER];
    allowed_tools := map name allowed_tools;
    agent_verbose := true
  |};
  tools := allowed_tools;
  return_intermediate_steps := true;
  executor_verbose := true
|}.

(** The chain [execute_memory_chain] builds for a prefix and a suffix. *)
Definition memory_chain (prompt_prefix prompt_suffix : string) : LLMChain := {|
  prompt := PlainPrompt {|
    template := prompt_prefix +:+ prompt_suffix;
    input_variables :=
      ["input"; "chat_history"; "episodic_memory"; "declarative_memory"]
  |};
  chain_verbose := true
|}.

(** The events of a tool-agent run that reported [cycles]. *)
Definition tool_agent_events (agent_input : loc) (allowed_tools : list Tool)
    (cycles : list LoopEvent) : list Event :=
  [Log "Using prompt" "INFO";
   Log TOOL_AGENT_TEMPLATE "INFO";
   AgentExecutorCall (tool_agent_executor allowed_tools) agent_input cycles].

Definition result_of {E A} (run : outcome A * Heap * list E) : outcome A :=
  fst (fst run).
Definition heap_of {E A} (run : outcome A * Heap * list E) : Heap :=
  snd (fst run).
Definition trace_of {E A} (run : outcome A * Heap * list E) : list E :=
  snd run.

(** A run with more events in front. *)
Definition after {E A} (events : list E) (run : outcome A * Heap * list E)
    : outcome A * Heap * list E :=
  (result_of run, heap_of run, events ++ trace_of run).

Definition is_executor_call (ev : Event) : bool :=
  match ev with AgentExecutorCall _ _ _ => true | _ => false end.
Definition is_chain_call (ev : Event) : bool :=
  match ev with LLMChainCall _ _ => true | _ => false end.

Definition executor_calls (events : list Event) : list Event :=
  List.filter is_executor_call events.
Definition chain_calls (events : list Event) : list Event :=
  List.filter is_chain_call events.

(** The completion requests among the cycles of the executor calls. *)
Definition stops_of_cycle (ev : LoopEvent) : list (list string) :=
  match ev with
  | Completion _ stop_sequences => [stop_sequences]
  | Parsing _ => []
  | Invocation _ _ => []
  end.
Definition requested_stops (events : list Event) : list (list string) :=
  flat_map (λ ev, match ev with
                  | AgentExecutorCall _ _ cycles =>
                      flat_map stops_of_cycle cycles
                  | _ => []
                  end) events.

(** The texts handed to the parser in the cycles of the executor calls. *)
Definition parsed_of_cycle (ev : LoopEvent) : list string :=
  match ev with
  | Parsing text => [text]
  | _ => []
  end.
Definition parsed_texts (events : list Event) : list string :=
  flat_map (λ ev, match ev with
                  | AgentExecutorCall _ _ cycles =>
                      flat_map parsed_of_cycle cycles
                  | _ => []
                  end) events.

(** [needle in text] *)
Fixpoint occurs_in (needle text : string) : bool :=
  String.prefix needle text ||
  match text with
  | EmptyString => false
  | String _ rest => occurs_in needle rest
  end.

(** Modelled from the spec: the contract of the completion service in
    section 6, whose code is not under src/: generation is truncated at the
    first occurrence of any listed stop sequence, so that the caller never
    receives text that holds one of them. *)
Definition honours_stop_sequences
    (complete : string → list string → Heap → outcome string * Heap) : Prop :=
  ∀ prompt_text stop_sequences h text h',
    complete prompt_text stop_sequences h = (Returns text, h') →
    ∀ stop_sequence,
      In stop_sequence stop_sequences → stop_sequence ≠ "" →
      occurs_in stop_sequence text = false.

(** The five hooks of lines 124 to 139 all return, in order, with these
    results, and leave the store at [h']. *)
Definition hooks_yield (mad_hatter : MadHatter) (h : Heap)
    (prompt_prefix prompt_format_instructions prompt_suffix : string)
    (allowed_tools : list Tool) (h' : Heap) : Prop :=
  ∃ h1 h2 h3 h4 variables,
    agent_prompt_prefix mad_hatter h = (Returns prompt_prefix, h1) ∧
    agent_prompt_instructions mad_hatter h1
      = (Returns prompt_format_instructions, h2) ∧
    agent_prompt_suffix mad_hatter h2 = (Returns prompt_suffix, h3) ∧
    before_agent_creates_prompt mad_hatter
      ["input"; "chat_history"; "episodic_memory"; "declarative_memory";
       "agent_scratchpad"]
      (join " " [prompt_prefix; prompt_format_instructions; prompt_suffix]) h3
      = (Returns variables, h4) ∧
    agent_allowed_tools mad_hatter h4 = (Returns allowed_tools, h').

(** The turn comes to the fallback from store [h] with store [h'] and
    [events] behind it: no tool is allowed, or the tool agent returned a
    record whose output is the sentinel. *)
Definition reaches_fallback (library : Library) (agent_input : loc)
    (allowed_tools : list Tool) (h : Heap) (events : list Event) (h' : Heap)
    : Prop :=
  (allowed_tools = [] ∧ events = [] ∧ h' = h) ∨
  (allowed_tools ≠ [] ∧
   ∃ out cycles record,
     call_agent_executor library (tool_agent_executor allowed_tools)
       agent_input h = (Returns out, h', cycles) ∧
     h' !! out = Some record ∧
     record !! "output" = Some (VStr "?") ∧
     events = tool_agent_events agent_input allowed_tools cycles).

(** A collaborator leaves the dict behind [l] as it is. *)
Definition keeps {A} (l : loc) (f : Heap → outcome A * Heap) : Prop :=
  ∀ h, snd (f h) !! l = h !! l.

(** ** A turn to run the code on *)

Definition the_input : loc := 1%positive.

Definition question : Dict :=
  {[ "input" := VStr "What time is it?";
     "chat_history" := VStr "";
     "episodic_memory" := VStr "";
     "declarative_memory" := VStr "" ]}.

Definition start : Heap := {[ the_input := question ]}.

Definition constant {A} (a : A) : Heap → outcome A * Heap :=
  λ h, (Returns a, h).

(** Hooks that return fixed fragments and a fixed list of tools, and answer
    the variables they are given through [adjust]. *)
Definition plain_hatter (prompt_prefix prompt_format_instructions
    prompt_suffix : string) (adjust : list string → list string)
    (allowed_tools : list Tool) : MadHatter := {|
  agent_prompt_prefix := constant prompt_prefix;
  agent_prompt_instructions := constant prompt_format_instructions;
  agent_prompt_suffix := constant prompt_suffix;
  before_agent_creates_prompt := λ variables _, constant (adjust variables);
  agent_allowed_tools := constant allowed_tools
|}.

Definition clock : Tool := {|
  name := "clock";
  description := "Tells the time of the day.";
  invoke := λ _, constant "noon"
|}.

(** An executor that answers as scripted: a new dict with the inputs, the
    output and the steps, or the error. *)
Definition scripted_executor
    (script : outcome (string * list ScratchpadEntry))
    : AgentExecutor → loc → M LoopEvent loc :=
  λ _ inputs h,
    match script, h !! inputs with
    | Returns run, Some d =>
        alloc (<["intermediate_steps" := VSteps (snd run)]>
                 (<["output" := VStr (fst run)]> d)) h
    | Returns _, None => (Raises (TypeError "inputs is not a dict"), h, [])
    | Raises e, _ => (Raises e, h, [])
    end.

(** A chain that answers as scripted: a new dict with the inputs and the
    text, or the error. *)
Definition scripted_chain (script : outcome string)
    : LLMChain → loc → Heap → outcome loc * Heap :=
  λ _ inputs h,
    match script, h !! inputs with
    | Returns text, Some d =>
        let l := fresh (dom h) in
        (Returns l, <[l := <["text" := VStr text]> d]> h)
    | Returns _, None => (Raises (TypeError "inputs is not a dict"), h)
    | Raises e, _ => (Raises e, h)
    end.

Definition scripted_library
    (run : outcome (string * list ScratchpadEntry))
    (completion : outcome string) : Library := {|
  call_agent_executor := scripted_executor run;
  call_llm_chain := scripted_chain completion
|}.

(** A chain that answers in the dict it was given. *)
Definition in_place_chain (text : string)
    : LLMChain → loc → Heap → outcome loc * Heap :=
  λ _ inputs h,
    match h !! inputs with
    | Some d => (Returns inputs, <[inputs := <["text" := VStr text]> d]> h)
    | None => (Raises (TypeError "inputs is not a dict"), h)
    end.

Definition a_step : ScratchpadEntry :=
  {| action := ("clock", "now"); observation := "noon" |}.

Definition malformed : exn :=
  Raised "MalformedOutputError" "no action and no final answer".
Definition stuck : exn :=
  Raised "ToolLoopStuckError" "the clock is broken".
Definition unavailable : exn :=
  Raised "ServiceError" "the language model is unavailable".

(** Parts for a run of two cycles: the model asks for the clock while the
    scratchpad is empty, then answers with what the clock said. *)
Definition clock_parts : LoopParts := {|
  render := λ _ _ scratchpad,
    Returns (join newline (map observation scratchpad));
  complete := λ prompt_text _,
    constant (if bool_decide (prompt_text = "") then "clock" else prompt_text);
  parse := λ _ text,
    Returns (if bool_decide (text = "clock") then ToolCall "clock" "now"
             else FinalAnswer text);
  max_iterations := 15
|}.

(** What is left of a generation cut at the first occurrence of a stop
    sequence, and at the first occurrence of any of several. *)
Fixpoint truncate_at (stop_sequence text : string) : string :=
  match text with
  | EmptyString => EmptyString
  | String c rest =>
      if String.prefix stop_sequence text then EmptyString
      else String c (truncate_at stop_sequence rest)
  end.
Definition truncate (stop_sequences : list string) (text : string) : string :=
  fold_right truncate_at text stop_sequences.

(** Parts for a run of two cycles with a model that goes on after the
    action and makes up an observation of its own; the service cuts what
    the model generates at the stop sequences. *)
Definition made_up_generation : string :=
  join newline ["Action: clock"; "Action Input: now"; "Observation: midnight"].
Definition asked_action : string :=
  join newline ["Action: clock"; "Action Input: now"].
Definition truncating_parts : LoopParts := {|
  render := λ _ _ scratchpad,
    Returns (join newline (map observation scratchpad));
  complete := λ prompt_text stop_sequences,
    constant
      (truncate stop_sequences
         (if bool_decide (prompt_text = "") then made_up_generation
          else "Final Answer: " +:+ prompt_text));
  parse := λ _ text,
    Returns (if bool_decide (text = asked_action) then ToolCall "clock" "now"
             else FinalAnswer text);
  max_iterations := 15
|}.

(** One of the five hooks of lines 124 to 139 raises [e], those before it
    having returned, and leaves the store at [h']. *)
Definition hooks_fail (mad_hatter : MadHatter) (h : Heap) (e : exn)
    (h' : Heap) : Prop :=
  agent_prompt_prefix mad_hatter h = (Raises e, h') ∨
  ∃ prompt_prefix h1,
    agent_prompt_prefix mad_hatter h = (Returns prompt_prefix, h1) ∧
    (agent_prompt_instructions mad_hatter h1 = (Raises e, h') ∨
     ∃ prompt_format_instructions h2,
       agent_prompt_instructions mad_hatter h1
         = (Returns prompt_format_instructions, h2) ∧
       (agent_prompt_suffix mad_hatter h2 = (Raises e, h') ∨
        ∃ prompt_suffix h3,
          agent_prompt_suffix mad_hatter h2 = (Returns prompt_suffix, h3) ∧
          (before_agent_creates_prompt mad_hatter
             ["input"; "chat_history"; "episodic_memory";
              "declarative_memory"; "agent_scratchpad"]
             (join " " [prompt_prefix; prompt_format_instructions;
                        prompt_suffix]) h3
             = (Raises e, h') ∨
           ∃ variables h4,
             before_agent_creates_prompt mad_hatter
               ["input"; "chat_history"; "episodic_memory";
                "declarative_memory"; "agent_scratchpad"]
               (join " " [prompt_prefix; prompt_format_instructions;
                          prompt_suffix]) h3
               = (Returns variables, h4) ∧
             agent_allowed_tools mad_hatter h4 = (Raises e, h')))).

(** A hook that raises. *)
Definition failing {A} (e : exn) : Heap → outcome A * Heap :=
  λ h, (Raises e, h).

(** An executor that answers with a copy of its inputs and nothing more. *)
Definition copying_executor : AgentExecutor → loc → M LoopEvent loc :=
  λ _ inputs h,
    match h !! inputs with
    | Some d => alloc d h
    | None => (Raises (TypeError "inputs is not a dict"), h, [])
    end.

(** A chain that answers with a copy of its inputs and nothing more. *)
Definition copying_chain : LLMChain → loc → Heap → outcome loc * Heap :=
  λ _ inputs h,
    match h !! inputs with
    | Some d => let l := fresh (dom h) in (Returns l, <[l := d]> h)
    | None => (Raises (TypeError "inputs is not a dict"), h)
    end.

Definition copying_library : Library := {|
  call_agent_executor := copying_executor;
  call_llm_chain := copying_chain
|}.

Definition forbidden : exn :=
  Raised "PermissionError" "the plugin may not list the tools".

(** * Properties *)

(** ** Running a computation step by step *)

Section Steps.

Context {E A B : Type}.
Implicit Types (m : M E A) (k : A → M E B) (h : Heap).

Lemma bind_returns m k h a h1 t1 :
  m h = (Returns a, h1, t1) → bind m k h = after t1 (k a h1).
Proof.
  intros Hm. unfold bind, after, result_of, heap_of, trace_of.
  rewrite Hm. by destruct (k a h1) as [[r h2] t2].
Qed.

Lemma bind_raises m k h e h1 t1 :
  m h = (Raises e, h1, t1) → bind m k h = (Raises e, h1, t1).
Proof. intros Hm. unfold bind. by rewrite Hm. Qed.

Lemma after_nil (run : outcome A * Heap * list E) : after [] run = run.
Proof. by destruct run as [[r h] t]. Qed.

Lemma after_after (t1 t2 : list E) (run : outcome A * Heap * list E) :
  after t1 (after t2 run) = after (t1 ++ t2) run.
Proof.
  destruct run as [[r h] t]. unfold after; simpl. by rewrite app_assoc.
Qed.

Lemma silent_returns (f : Heap → outcome A * Heap) h a h1 :
  f h = (Returns a, h1) → silent (E := E) f h = (Returns a, h1, []).
Proof. intros Hf. unfold silent. by rewrite Hf. Qed.

End Steps.

Section Paths.

Variable mad_hatter : MadHatter.
Variable library : Library.
Implicit Types (agent_input out : loc) (h : Heap) (registry : list Tool).

(** The tool agent is one call of the executor it builds, after two lines
    of log. *)
Lemma execute_tool_agent_run agent_input registry h :
  execute_tool_agent library agent_input registry h
  = match call_agent_executor library (tool_agent_executor registry)
            agent_input h with
    | (r, h1, cycles) =>
        (r, h1, tool_agent_events agent_input registry cycles)
    end.
Proof.
  unfold execute_tool_agent, run_executor, bind, log, emit, ret; simpl.
  fold (tool_agent_executor registry).
  destruct (call_agent_executor _ _ _ _) as [[[out|e] h1] cycles]; done.
Qed.

(** The memory chain is one call of the chain it builds; the text of the
    record that comes back is copied to its output. *)
Lemma execute_memory_chain_run agent_input prefix suffix h :
  execute_memory_chain library agent_input prefix suffix h
  = match call_llm_chain library (memory_chain prefix suffix)
            agent_input h with
    | (Returns out, h1) =>
        after [LLMChainCall (memory_chain prefix suffix) agent_input]
          ((let! text := getitem out "text" in
            do! setitem out "output" text in
            ret out) h1)
    | (Raises e, h1) =>
        (Raises e, h1,
         [LLMChainCall (memory_chain prefix suffix) agent_input])
    end.
Proof.
  unfold execute_memory_chain. fold (memory_chain prefix suffix).
  destruct (call_llm_chain _ _ _ _) as [[out|e] h1] eqn:Hcall.
  - erewrite bind_returns; [done|]. unfold run_chain. by rewrite Hcall.
  - erewrite bind_raises; [done|]. unfold run_chain. by rewrite Hcall.
Qed.

Lemma execute_memory_chain_trace agent_input prefix suffix h :
  trace_of (execute_memory_chain library agent_input prefix suffix h)
  = [LLMChainCall (memory_chain prefix suffix) agent_input].
Proof.
  rewrite execute_memory_chain_run.
  destruct (call_llm_chain _ _ _ _) as [[out|e] h1]; [|done].
  unfold getitem, setitem, bind, ret, after, trace_of; simpl.
  destruct (h1 !! out) as [d|] eqn:Hd; [|done].
  destruct (d !! "text"); [|done].
  simpl. by rewrite Hd.
Qed.

Lemma execute_agent_after_hooks agent_input h prefix instructions suffix
    registry h' :
  hooks_yield mad_hatter h prefix instructions suffix registry h' →
  execute_agent mad_hatter library agent_input h
  = choose_answer library agent_input prefix suffix registry h'.
Proof.
  intros (h1 & h2 & h3 & h4 & variables & H1 & H2 & H3 & H4 & H5).
  unfold execute_agent.
  erewrite bind_returns by (by apply silent_returns). rewrite after_nil.
  erewrite bind_returns by (by apply silent_returns). rewrite after_nil.
  erewrite bind_returns by (by apply silent_returns). rewrite after_nil.
  erewrite bind_returns by (by apply silent_returns). rewrite after_nil.
  erewrite bind_returns by (by apply silent_returns). by rewrite after_nil.
Qed.

Lemma bool_decide_nonempty registry :
  registry ≠ [] → bool_decide (0 < length registry) = true.
Proof.
  intros Hne. apply bool_decide_eq_true. destruct registry; [done|].
  simpl. lia.
Qed.

(** With no tool the choice is the memory chain. *)
Lemma choose_answer_no_tool agent_input prefix suffix h :
  choose_answer library agent_input prefix suffix [] h
  = execute_memory_chain library agent_input prefix suffix h.
Proof.
  unfold choose_answer; simpl.
  erewrite bind_returns by reflexivity. rewrite after_nil. simpl.
  unfold bind, ret.
  destruct (execute_memory_chain _ _ _ _ _) as [[[out|e] h1] t]; [|done].
  by rewrite ?app_nil_r.
Qed.

(** With tools, the tool agent returning a record with an output, the
    choice is by that output. *)
Lemma choose_answer_tools agent_input prefix suffix registry h out h1
    cycles record output :
  registry ≠ [] →
  call_agent_executor library (tool_agent_executor registry) agent_input h
    = (Returns out, h1, cycles) →
  h1 !! out = Some record →
  record !! "output" = Some output →
  choose_answer library agent_input prefix suffix registry h
  = if value_neqb output (VStr "?") then
      (Returns out, h1, tool_agent_events agent_input registry cycles)
    else
      after (tool_agent_events agent_input registry cycles)
        (execute_memory_chain library agent_input prefix suffix h1).
Proof.
  intros Hne Hcall Hrec Hout. unfold choose_answer.
  rewrite (bool_decide_nonempty _ Hne).
  assert (Htool :
    (let! out := execute_tool_agent library agent_input registry in
     let! output := getitem out "output" in
     ret (Some out, value_neqb output (VStr "?"))) h
    = (Returns (Some out, value_neqb output (VStr "?")), h1,
       tool_agent_events agent_input registry cycles)).
  { erewrite bind_returns
      by (rewrite execute_tool_agent_run, Hcall; reflexivity).
    unfold getitem, bind, ret, after; simpl. rewrite Hrec, Hout. simpl.
    reflexivity. }
  erewrite bind_returns by exact Htool. simpl.
  destruct (value_neqb output (VStr "?")); simpl.
  - unfold after, ret; simpl. by rewrite ?app_nil_r.
  - f_equal. unfold bind, ret.
    destruct (execute_memory_chain _ _ _ _ _) as [[[o|e] h2] t]; [|done].
    by rewrite ?app_nil_r.
Qed.

(** With tools, the tool agent raising, the choice raises the same. *)
Lemma choose_answer_tools_raise agent_input prefix suffix registry h e h1
    cycles :
  registry ≠ [] →
  call_agent_executor library (tool_agent_executor registry) agent_input h
    = (Raises e, h1, cycles) →
  choose_answer library agent_input prefix suffix registry h
  = (Raises e, h1, tool_agent_events agent_input registry cycles).
Proof.
  intros Hne Hcall. unfold choose_answer.
  rewrite (bool_decide_nonempty _ Hne).
  erewrite bind_raises; [done|].
  erewrite bind_raises; [done|].
  by rewrite execute_tool_agent_run, Hcall.
Qed.

Lemma choose_answer_fallback agent_input prefix suffix registry h events h' :
  reaches_fallback library agent_input registry h events h' →
  choose_answer library agent_input prefix suffix registry h
  = after events
      (execute_memory_chain library agent_input prefix suffix h').
Proof.
  intros [(-> & -> & ->)|(Hne & out & cycles & record & Hcall & Hrec & Hout & ->)].
  - by rewrite choose_answer_no_tool, after_nil.
  - by rewrite (choose_answer_tools _ _ _ _ _ _ _ _ _ _ Hne Hcall Hrec Hout).
Qed.

End Paths.

(** ** The choice between the tool agent and the memory chain *)

Lemma tool_agent_events_no_chain_call agent_input registry cycles :
  chain_calls (tool_agent_events agent_input registry cycles) = [].
Proof. reflexivity. Qed.

Lemma chain_calls_app (t1 t2 : list Event) :
  chain_calls (t1 ++ t2) = chain_calls t1 ++ chain_calls t2.
Proof. apply List.filter_app. Qed.

Lemma executor_calls_app (t1 t2 : list Event) :
  executor_calls (t1 ++ t2) = executor_calls t1 ++ executor_calls t2.
Proof. apply List.filter_app. Qed.

Lemma trace_of_after {E A} (t : list E) (run : outcome A * Heap * list E) :
  trace_of (after t run) = t ++ trace_of run.
Proof. reflexivity. Qed.

Lemma result_of_after {E A} (t : list E) (run : outcome A * Heap * list E) :
  result_of (after t run) = result_of run.
Proof. reflexivity. Qed.

Lemma heap_of_after {E A} (t : list E) (run : outcome A * Heap * list E) :
  heap_of (after t run) = heap_of run.
Proof. reflexivity. Qed.

Lemma value_neqb_true (a b : value) : a ≠ b → value_neqb a b = true.
Proof. intros H. by apply bool_decide_eq_true. Qed.

Lemma value_neqb_refl (a : value) : value_neqb a a = false.
Proof. apply bool_decide_eq_false. by intros H. Qed.

(** Concrete runs are settled by evaluation of their result and trace; the
    store is named, not spelled out. *)
Lemma run_eq {E A} (run : outcome A * Heap * list E) r t :
  result_of run = r → trace_of run = t → run = (r, heap_of run, t).
Proof. destruct run as [[r0 h0] t0]. cbn. by intros -> ->. Qed.

Lemma call_eq {A} (call : outcome A * Heap) r :
  fst call = r → call = (r, snd call).
Proof. destruct call as [r0 h0]. cbn. by intros ->. Qed.

Lemma lookup_by_default (h : Heap) (l : loc) :
  bool_decide (is_Some (h !! l)) = true →
  h !! l = Some (default ∅ (h !! l)).
Proof.
  intros H. apply bool_decide_eq_true in H. by destruct H as [d ->].
Qed.

Lemma hooks_yield_plain prefix instructions suffix adjust registry h :
  hooks_yield (plain_hatter prefix instructions suffix adjust registry) h
    prefix instructions suffix registry h.
Proof. unfold hooks_yield. by repeat eexists. Qed.

(** C1: with a non-empty list of allowed tools and the tool agent returning
    a record with an output, [execute_agent] runs the tool agent first; it
    runs the memory chain if and only if that output is the sentinel "?";
    when the output is not the sentinel the reference the tool agent
    returned is returned with the store as the tool agent left it, so the
    record is unchanged; when it is the sentinel the turn goes on as the
    memory chain does and what the memory chain returns is returned. *)
Theorem C1_tools_first_fallback_iff_sentinel
    (mad_hatter : MadHatter) (library : Library) (agent_input : loc)
    (h : Heap) (prefix instructions suffix : string) (registry : list Tool)
    (h5 : Heap) (out : loc) (h6 : Heap) (cycles : list LoopEvent)
    (record : Dict) (output : value) :
  hooks_yield mad_hatter h prefix instructions suffix registry h5 →
  registry ≠ [] →
  call_agent_executor library (tool_agent_executor registry) agent_input h5
    = (Returns out, h6, cycles) →
  h6 !! out = Some record →
  record !! "output" = Some output →
  let run := execute_agent mad_hatter library agent_input h in
  let fallback := execute_memory_chain library agent_input prefix suffix h6 in
  (∃ rest,
     trace_of run = tool_agent_events agent_input registry cycles ++ rest) ∧
  (chain_calls (trace_of run) ≠ [] ↔ output = VStr "?") ∧
  (output ≠ VStr "?" →
     run = (Returns out, h6, tool_agent_events agent_input registry cycles) ∧
     heap_of run !! out = Some record) ∧
  (output = VStr "?" →
     run = after (tool_agent_events agent_input registry cycles) fallback).
Proof.
  intros Hhooks Hne Hcall Hrec Hout run fallback.
  assert (Hrun : run =
    if value_neqb output (VStr "?") then
      (Returns out, h6, tool_agent_events agent_input registry cycles)
    else after (tool_agent_events agent_input registry cycles) fallback).
  { unfold run. rewrite (execute_agent_after_hooks _ _ _ _ _ _ _ _ _ Hhooks).
    by apply choose_answer_tools with (record := record). }
  destruct (decide (output = VStr "?")) as [->|Hneq].
  - rewrite value_neqb_refl in Hrun. rewrite Hrun.
    split; [by eexists|]. split; [|by split].
    split; [done|]. intros _.
    rewrite trace_of_after, chain_calls_app.
    unfold fallback. rewrite execute_memory_chain_trace. done.
  - rewrite (value_neqb_true _ _ Hneq) in Hrun. rewrite Hrun.
    split; [exists []; by rewrite app_nil_r|]. split; [|by split].
    split; [|done]. intros Hcalls. by destruct Hcalls.
Qed.

(** At work: the tool agent answers "42" without calling a tool, and the
    turn returns its record, with no step in it. *)
Lemma C1_tools_first_fallback_iff_sentinel_witness :
  let run :=
    execute_agent (plain_hatter "You are the Cat. " "" "{input}" id [clock])
      (scripted_library (Returns ("42", [])) (Returns "hello"))
      the_input start in
  result_of run = Returns 2%positive ∧
  chain_calls (trace_of run) = [] ∧
  default ∅ (heap_of run !! 2%positive) !! "output" = Some (VStr "42") ∧
  default ∅ (heap_of run !! 2%positive) !! "intermediate_steps"
    = Some (VSteps []).
Proof.
  intros run.
  pose (library := scripted_library (Returns ("42", [])) (Returns "hello")).
  pose (tool_run := call_agent_executor library (tool_agent_executor [clock])
                      the_input start).
  destruct (C1_tools_first_fallback_iff_sentinel
    (plain_hatter "You are the Cat. " "" "{input}" id [clock]) library
    the_input start "You are the Cat. " "" "{input}" [clock] start
    2%positive (heap_of tool_run) []
    (default ∅ (heap_of tool_run !! 2%positive)) (VStr "42"))
    as (_ & _ & Hkept & _).
  - apply hooks_yield_plain.
  - done.
  - apply run_eq; vm_compute; reflexivity.
  - apply lookup_by_default. vm_compute. reflexivity.
  - vm_compute. reflexivity.
  - destruct Hkept as [Hrun Hrecord]; [done|].
    fold run in Hrun, Hrecord. rewrite Hrun in *.
    repeat split; vm_compute; reflexivity.
Defined.

(** C2, as the code has it: with a non-empty list of allowed tools, a
    failure of the tool agent, ToolLoopStuckError included, is the outcome
    of [execute_agent]: the turn ends where the tool agent raised, and the
    memory chain is not run. *)
Theorem C2_tool_agent_failure_propagates
    (mad_hatter : MadHatter) (library : Library) (agent_input : loc)
    (h : Heap) (prefix instructions suffix : string) (registry : list Tool)
    (h5 : Heap) (e : exn) (h6 : Heap) (cycles : list LoopEvent) :
  hooks_yield mad_hatter h prefix instructions suffix registry h5 →
  registry ≠ [] →
  call_agent_executor library (tool_agent_executor registry) agent_input h5
    = (Raises e, h6, cycles) →
  execute_agent mad_hatter library agent_input h
    = (Raises e, h6, tool_agent_events agent_input registry cycles) ∧
  chain_calls (trace_of (execute_agent mad_hatter library agent_input h))
    = [].
Proof.
  intros Hhooks Hne Hcall.
  rewrite (execute_agent_after_hooks _ _ _ _ _ _ _ _ _ Hhooks).
  by rewrite (choose_answer_tools_raise _ _ _ _ _ _ _ _ _ Hne Hcall).
Qed.

(** At work: the tool agent fails on a completion it cannot parse. *)
Lemma C2_tool_agent_failure_propagates_witness :
  result_of
    (execute_agent (plain_hatter "You are the Cat. " "" "{input}" id [clock])
       (scripted_library (Raises malformed) (Returns "hello"))
       the_input start)
  = Raises malformed.
Proof.
  pose (library := scripted_library (Raises malformed) (Returns "hello")).
  pose (tool_run := call_agent_executor library (tool_agent_executor [clock])
                      the_input start).
  destruct (C2_tool_agent_failure_propagates
    (plain_hatter "You are the Cat. " "" "{input}" id [clock]) library
    the_input start "You are the Cat. " "" "{input}" [clock] start
    malformed (heap_of tool_run) []) as [Hrun _].
  - apply hooks_yield_plain.
  - done.
  - apply run_eq; vm_compute; reflexivity.
  - fold library. by rewrite Hrun.
Defined.

(** C2 fails as stated: a tool agent that raises MalformedOutputError, or
    ToolLoopStuckError, while the memory chain would have answered "hello":
    the turn raises the same error and no chain is called. *)
Lemma C2_counterexample :
  let hatter := plain_hatter "You are the Cat. " "" "{input}" id [clock] in
  let turn e :=
    execute_agent hatter (scripted_library (Raises e) (Returns "hello"))
      the_input start in
  (result_of (turn malformed) = Raises malformed ∧
   chain_calls (trace_of (turn malformed)) = []) ∧
  (result_of (turn stuck) = Raises stuck ∧
   chain_calls (trace_of (turn stuck)) = []).
Proof. repeat split; vm_compute; reflexivity. Qed.

(** C3: with an empty list of allowed tools, [execute_agent] is the memory
    chain, run on the store the hooks left: it returns what the memory
    chain returns, and no agent executor is called. *)
Theorem C3_no_tool_is_memory_chain
    (mad_hatter : MadHatter) (library : Library) (agent_input : loc)
    (h : Heap) (prefix instructions suffix : string) (h5 : Heap) :
  hooks_yield mad_hatter h prefix instructions suffix [] h5 →
  execute_agent mad_hatter library agent_input h
    = execute_memory_chain library agent_input prefix suffix h5 ∧
  executor_calls (trace_of (execute_agent mad_hatter library agent_input h))
    = [].
Proof.
  intros Hhooks.
  rewrite (execute_agent_after_hooks _ _ _ _ _ _ _ _ _ Hhooks).
  rewrite choose_answer_no_tool. split; [done|].
  by rewrite execute_memory_chain_trace.
Qed.

(** At work: no tool is allowed, and the executor would have failed had it
    been called. *)
Lemma C3_no_tool_is_memory_chain_witness :
  let run :=
    execute_agent (plain_hatter "You are the Cat. " "" "{input}" id [])
      (scripted_library (Raises malformed) (Returns "hello"))
      the_input start in
  result_of run = Returns 2%positive ∧
  default ∅ (heap_of run !! 2%positive) !! "output" = Some (VStr "hello") ∧
  executor_calls (trace_of run) = [].
Proof.
  intros run.
  destruct (C3_no_tool_is_memory_chain
    (plain_hatter "You are the Cat. " "" "{input}" id [])
    (scripted_library (Raises malformed) (Returns "hello"))
    the_input start "You are the Cat. " "" "{input}" start) as [Hrun Hcalls].
  - apply hooks_yield_plain.
  - fold run in Hrun, Hcalls. split; [|split; [|exact Hcalls]].
    + rewrite Hrun. vm_compute. reflexivity.
    + rewrite Hrun. vm_compute. reflexivity.
Defined.

(** ** The memory chain *)

(** C4, as the code has it: the memory chain builds one prompt, the prefix
    followed by the suffix, over the four variables input, chat_history,
    episodic_memory and declarative_memory; it calls one chain on it, once,
    and no agent executor; when that call returns a record with a text, it
    returns that same record with the text copied to its output.  It adds
    no other field: the intermediate_steps of the record are what the chain
    put there, if anything. *)
Theorem C4_memory_chain_copies_text_to_output
    (library : Library) (agent_input : loc) (prefix suffix : string)
    (h : Heap) (out : loc) (h1 : Heap) (record : Dict) (text : value) :
  let chain := {|
    prompt := PlainPrompt {|
      template := prefix +:+ suffix;
      input_variables :=
        ["input"; "chat_history"; "episodic_memory"; "declarative_memory"]
    |};
    chain_verbose := true
  |} in
  call_llm_chain library chain agent_input h = (Returns out, h1) →
  h1 !! out = Some record →
  record !! "text" = Some text →
  execute_memory_chain library agent_input prefix suffix h
    = (Returns out, <[out := <["output" := text]> record]> h1,
       [LLMChainCall chain agent_input]) ∧
  <["output" := text]> record !! "output" = Some text ∧
  <["output" := text]> record !! "intermediate_steps"
    = record !! "intermediate_steps".
Proof.
  intros chain Hcall Hrecord Htext. split; [|split].
  - rewrite execute_memory_chain_run.
    change (memory_chain prefix suffix) with chain. rewrite Hcall.
    unfold getitem, setitem, bind, ret, after; cbn.
    rewrite Hrecord, Htext. cbn. by rewrite Hrecord.
  - apply lookup_insert_eq.
  - by apply lookup_insert_ne.
Qed.

(** At work: the chain answers "hello" in a new dict with the inputs. *)
Lemma C4_memory_chain_copies_text_to_output_witness :
  let run :=
    execute_memory_chain
      (scripted_library (Raises malformed) (Returns "hello"))
      the_input "You are the Cat. " "{input}" start in
  result_of run = Returns 2%positive ∧
  length (trace_of run) = 1 ∧
  default ∅ (heap_of run !! 2%positive) !! "output" = Some (VStr "hello").
Proof.
  intros run.
  pose (library := scripted_library (Raises malformed) (Returns "hello")).
  pose (call := call_llm_chain library
                  (memory_chain "You are the Cat. " "{input}")
                  the_input start).
  destruct (C4_memory_chain_copies_text_to_output library the_input
    "You are the Cat. " "{input}" start 2%positive (snd call)
    (default ∅ (snd call !! 2%positive)) (VStr "hello"))
    as (Hrun & Houtput & _).
  - apply call_eq. vm_compute. reflexivity.
  - apply lookup_by_default. vm_compute. reflexivity.
  - vm_compute. reflexivity.
  - unfold run. unfold library in Hrun. rewrite Hrun.
    split; [done|]. split; [done|].
    unfold heap_of; cbn. rewrite lookup_insert_eq. exact Houtput.
Defined.

(** C4 fails as stated: the chain answers "hello" in a new dict with the
    four inputs of the turn; the record the memory chain returns has that
    text for output and no intermediate_steps at all. *)
Lemma C4_counterexample :
  let run :=
    execute_memory_chain
      (scripted_library (Raises malformed) (Returns "hello"))
      the_input "You are the Cat. " "{input}" start in
  result_of run = Returns 2%positive ∧
  default ∅ (heap_of run !! 2%positive) !! "output" = Some (VStr "hello") ∧
  default ∅ (heap_of run !! 2%positive) !! "intermediate_steps" = None ∧
  default ∅ (heap_of run !! 2%positive) !! "intermediate_steps"
    ≠ Some (VSteps []).
Proof.
  intros run.
  assert (Hnone : default ∅ (heap_of run !! 2%positive)
                    !! "intermediate_steps" = None)
    by (vm_compute; reflexivity).
  split; [vm_compute; reflexivity|].
  split; [vm_compute; reflexivity|].
  split; [exact Hnone|]. by rewrite Hnone.
Qed.

(** ** The hook on the input variables *)

(** What the hook on the input variables answers plays no part in the turn:
    two mad hatters that differ in it only make the same turn. *)
Lemma adjusted_variables_are_dropped
    (prefix instructions suffix : string)
    (adjust1 adjust2 : list string → list string) (registry : list Tool)
    (library : Library) (agent_input : loc) (h : Heap) :
  execute_agent (plain_hatter prefix instructions suffix adjust1 registry)
    library agent_input h
  = execute_agent (plain_hatter prefix instructions suffix adjust2 registry)
      library agent_input h.
Proof.
  rewrite !(execute_agent_after_hooks _ _ _ _ _ _ _ _ _
              (hooks_yield_plain _ _ _ _ _ _)).
  reflexivity.
Qed.

(** C5 does not hold of the code: the hook answers the two variables input
    and mood, and the prompts of the turn are built over the variables the
    source spells out, on the tool path (input, intermediate_steps) as on
    the memory path (input, chat_history, episodic_memory,
    declarative_memory). *)
Theorem C5_adjusted_variables_never_reach_a_prompt :
  let hatter :=
    plain_hatter "You are the Cat. " "" "{input}"
      (λ _, ["input"; "mood"]) [clock] in
  let run :=
    execute_agent hatter (scripted_library (Returns ("?", [])) (Returns "hello"))
      the_input start in
  trace_of run
  = [Log "Using prompt" "INFO";
     Log TOOL_AGENT_TEMPLATE "INFO";
     AgentExecutorCall {|
       agent := {|
         llm_chain := {|
           prompt := ToolPrompt {|
             tool_template := TOOL_AGENT_TEMPLATE;
             tool_template_tools := [clock];
             tool_input_variables := ["input"; "intermediate_steps"]
           |};
           chain_verbose := true
         |};
         output_parser := ToolOutputParser;
         stop := [OBSERVATION_MARKER];
         allowed_tools := ["clock"];
         agent_verbose := true
       |};
       tools := [clock];
       return_intermediate_steps := true;
       executor_verbose := true
     |} the_input [];
     LLMChainCall {|
       prompt := PlainPrompt {|
         template := "You are the Cat. {input}";
         input_variables :=
           ["input"; "chat_history"; "episodic_memory"; "declarative_memory"]
       |};
       chain_verbose := true
     |} the_input].
Proof. vm_compute. reflexivity. Qed.

(** ** The calls of the agent executor *)

Lemma trace_of_bind {E A B} (m : M E A) (k : A → M E B) (h : Heap) :
  trace_of (bind m k h)
  = trace_of (m h) ++
    match result_of (m h) with
    | Returns a => trace_of (k a (heap_of (m h)))
    | Raises _ => []
    end.
Proof.
  unfold bind. destruct (m h) as [[[a|e] h1] t1]; cbn.
  - by destruct (k a h1) as [[r h2] t2].
  - by rewrite app_nil_r.
Qed.

Lemma bind_now {E A B} (r : outcome A) (k : A → M E B) (h : Heap) :
  bind (now r) k h
  = match r with
    | Returns a => k a h
    | Raises e => (Raises e, h, [])
    end.
Proof.
  unfold bind, now. destruct r as [a|e]; [|done].
  by destruct (k a h) as [[r h1] t].
Qed.

Lemma trace_of_silent {E A} (f : Heap → outcome A * Heap) (h : Heap) :
  trace_of (silent (E := E) f h) = [].
Proof. unfold silent. by destruct (f h). Qed.

Lemma trace_of_getitem {E} (d : loc) (key : string) (h : Heap) :
  trace_of (getitem (E := E) d key h) = [].
Proof.
  unfold getitem. destruct (h !! d) as [m|]; [|done]. by destruct (m !! key).
Qed.

Lemma trace_of_execute_tool_agent library agent_input registry h :
  trace_of (execute_tool_agent library agent_input registry h)
  = tool_agent_events agent_input registry
      (trace_of (call_agent_executor library (tool_agent_executor registry)
                   agent_input h)).
Proof.
  rewrite execute_tool_agent_run.
  by destruct (call_agent_executor _ _ _ _) as [[r h1] cycles].
Qed.

(** Whatever the fragments, the turn calls the executor once when a tool is
    allowed and never otherwise, and the executor is the one
    [execute_tool_agent] builds from the tools alone. *)
Lemma choose_answer_executor_calls library agent_input prefix suffix
    registry h :
  executor_calls
    (trace_of (choose_answer library agent_input prefix suffix registry h))
  = if bool_decide (0 < length registry) then
      [AgentExecutorCall (tool_agent_executor registry) agent_input
         (trace_of (call_agent_executor library
                      (tool_agent_executor registry) agent_input h))]
    else [].
Proof.
  unfold choose_answer. rewrite trace_of_bind, executor_calls_app.
  assert (Hrest : ∀ (after_tools : option loc * bool) h',
    executor_calls (trace_of
      ((if negb (snd after_tools) then
          let! out := execute_memory_chain library agent_input prefix suffix in
          ret out
        else match fst after_tools with
             | Some out => ret out
             | None => raise (UnboundLocalError "out")
             end) h')) = []).
  { intros [out enough] h'; cbn. destruct enough; cbn.
    - by destruct out.
    - rewrite trace_of_bind, execute_memory_chain_trace.
      by destruct (result_of _). }
  destruct (bool_decide (0 < length registry)).
  - rewrite trace_of_bind, trace_of_execute_tool_agent.
    rewrite executor_calls_app. cbn [tool_agent_events executor_calls
      List.filter is_executor_call app].
    set (first := bind _ _ h).
    assert (Hmid : executor_calls
      match result_of (execute_tool_agent library agent_input registry h) with
      | Returns a =>
          trace_of
            ((let! output := getitem a "output" in
              ret (Some a, value_neqb output (VStr "?")))
               (heap_of (execute_tool_agent library agent_input registry h)))
      | Raises _ => []
      end = []).
    { destruct (result_of _); [|done].
      rewrite trace_of_bind, trace_of_getitem. by destruct (result_of _). }
    rewrite Hmid. cbn [app].
    destruct (result_of first) as [after_tools|]; [|done].
    by rewrite (Hrest after_tools).
  - exact (Hrest (None, false) h).
Qed.

Lemma execute_agent_executor_calls mad_hatter library agent_input h :
  executor_calls (trace_of (execute_agent mad_hatter library agent_input h))
    = [] ∨
  ∃ registry h',
    executor_calls (trace_of (execute_agent mad_hatter library agent_input h))
    = [AgentExecutorCall (tool_agent_executor registry) agent_input
         (trace_of (call_agent_executor library
                      (tool_agent_executor registry) agent_input h'))].
Proof.
  unfold execute_agent.
  repeat (rewrite trace_of_bind, trace_of_silent;
          cbn [app]; destruct (result_of _); [|by left]).
  rewrite choose_answer_executor_calls.
  destruct (bool_decide _); [right; by eexists _, _|by left].
Qed.

Lemma requested_stops_executor_calls (events : list Event) :
  requested_stops (executor_calls events) = requested_stops events.
Proof.
  induction events as [|ev events IH]; [done|].
  destruct ev; cbn; [exact IH| |exact IH].
  f_equal. exact IH.
Qed.

(** ** The stop sequence of the cycle *)

Lemma prefix_of_empty (s : string) : String.prefix s "" = true → s = "".
Proof. by destruct s. Qed.

Lemma prefix_of_truncate_at (stop_sequence : string) :
  ∀ text s,
    String.prefix s (truncate_at stop_sequence text) = true →
    String.prefix s text = true.
Proof.
  induction text as [|c rest IH]; intros s; [done|].
  cbn [truncate_at].
  destruct (String.prefix stop_sequence (String c rest)).
  - intros Hs. by rewrite (prefix_of_empty s Hs).
  - destruct s as [|c' s']; [done|]. cbn.
    destruct (ascii_dec c' c); [apply IH|done].
Qed.

Lemma occurs_in_truncate_at (stop_sequence s : string) :
  ∀ text,
    occurs_in s (truncate_at stop_sequence text) = true →
    occurs_in s text = true.
Proof.
  induction text as [|c rest IH]; [done|].
  cbn [truncate_at].
  destruct (String.prefix stop_sequence (String c rest)) eqn:Hstop.
  - cbn. rewrite orb_false_r. intros Hs.
    rewrite (prefix_of_empty s Hs). done.
  - intros Hocc. cbn [occurs_in] in Hocc |- *.
    apply orb_true_iff in Hocc. apply orb_true_iff.
    destruct Hocc as [Hprefix|Hrest]; [left|right; by apply IH].
    apply (prefix_of_truncate_at stop_sequence (String c rest)).
    cbn [truncate_at]. by rewrite Hstop.
Qed.

Lemma truncate_at_free (stop_sequence : string) :
  stop_sequence ≠ "" →
  ∀ text, occurs_in stop_sequence (truncate_at stop_sequence text) = false.
Proof.
  intros Hne. induction text as [|c rest IH].
  - cbn. rewrite orb_false_r. apply not_true_is_false.
    intros Hs. by apply prefix_of_empty in Hs.
  - cbn [truncate_at].
    destruct (String.prefix stop_sequence (String c rest)) eqn:Hstop.
    + cbn. rewrite orb_false_r. apply not_true_is_false.
      intros Hs. by apply prefix_of_empty in Hs.
    + cbn [occurs_in]. rewrite IH, orb_false_r. apply not_true_is_false.
      intros Hs.
      assert (Hcut : String.prefix stop_sequence
                       (truncate_at stop_sequence (String c rest)) = true)
        by (cbn [truncate_at]; by rewrite Hstop).
      apply prefix_of_truncate_at in Hcut. congruence.
Qed.

Lemma truncate_free (stop_sequences : list string) (s text : string) :
  In s stop_sequences → s ≠ "" →
  occurs_in s (truncate stop_sequences text) = false.
Proof.
  intros Hin Hne. unfold truncate.
  induction stop_sequences as [|s' rest IH]; [done|]. cbn [fold_right].
  destruct Hin as [->|Hin]; [by apply truncate_at_free|].
  apply not_true_is_false. intros Hocc.
  apply occurs_in_truncate_at in Hocc. by rewrite (IH Hin) in Hocc.
Qed.

Lemma truncating_parts_honour_stop_sequences :
  honours_stop_sequences (complete truncating_parts).
Proof.
  intros prompt_text stop_sequences h text h' [= <- _] s Hin Hne.
  by apply truncate_free.
Qed.

Lemma parsed_texts_executor_calls (events : list Event) :
  parsed_texts (executor_calls events) = parsed_texts events.
Proof.
  induction events as [|ev events IH]; [done|].
  destruct ev; cbn; [exact IH| |exact IH].
  f_equal. exact IH.
Qed.

Section Cycle.

Variable parts : LoopParts.
Variable agent_executor : AgentExecutor.

Lemma dispatch_stops registry tool_name tool_input h :
  flat_map stops_of_cycle
    (trace_of (dispatch registry tool_name tool_input h)) = [].
Proof.
  unfold dispatch. destruct (find _ registry) as [t|]; [|done].
  by destruct (invoke t tool_input h) as [[text|e] h1].
Qed.

Lemma dispatch_parsed registry tool_name tool_input h :
  flat_map parsed_of_cycle
    (trace_of (dispatch registry tool_name tool_input h)) = [].
Proof.
  unfold dispatch. destruct (find _ registry) as [t|]; [|done].
  by destruct (invoke t tool_input h) as [[text|e] h1].
Qed.

Lemma cycle_stops inputs budget : ∀ scratchpad last_failure h,
  Forall (λ stop_sequences, stop_sequences = stop (agent agent_executor))
    (flat_map stops_of_cycle
       (trace_of (cycle parts agent_executor inputs budget scratchpad
                    last_failure h))).
Proof.
  induction budget as [|budget IH]; intros scratchpad last_failure h;
    [by constructor|].
  cbn [cycle]. rewrite bind_now.
  destruct (render parts _ inputs scratchpad) as [prompt_text|e];
    [|by constructor].
  rewrite trace_of_bind, flat_map_app. apply Forall_app. split.
  { unfold request. destruct (complete parts _ _ h) as [r h1]. cbn.
    by repeat constructor. }
  destruct (result_of (request parts prompt_text _ h)) as [text|e];
    [|by constructor].
  rewrite trace_of_bind. cbn [parsing trace_of result_of heap_of fst snd app
    flat_map stops_of_cycle].
  destruct (parse parts _ text) as [[tool_name tool_input|answer]|e];
    [|by constructor..].
  rewrite trace_of_bind, flat_map_app, dispatch_stops. cbn [app].
  destruct (result_of (dispatch _ _ _ _)) as [[observed|message]|e];
    [apply IH| |by constructor].
  destruct (bool_decide _); [by constructor|apply IH].
Qed.

(** What the service answers to a request with the stop sequences of the
    agent is what the parser is given, and nothing else is. *)
Lemma cycle_parsed (answered : string → Prop) inputs budget :
  (∀ prompt_text h text h',
     complete parts prompt_text (stop (agent agent_executor)) h
       = (Returns text, h') → answered text) →
  ∀ scratchpad last_failure h,
    Forall answered
      (flat_map parsed_of_cycle
         (trace_of (cycle parts agent_executor inputs budget scratchpad
                      last_failure h))).
Proof.
  intros Hservice.
  induction budget as [|budget IH]; intros scratchpad last_failure h;
    [by constructor|].
  cbn [cycle]. rewrite bind_now.
  destruct (render parts _ inputs scratchpad) as [prompt_text|e];
    [|by constructor].
  rewrite trace_of_bind, flat_map_app. apply Forall_app. split.
  { unfold request. destruct (complete parts _ _ h) as [r h1]. cbn.
    by constructor. }
  unfold request.
  destruct (complete parts prompt_text (stop (agent agent_executor)) h)
    as [[text|e] h1] eqn:Hcomplete; cbn [result_of heap_of fst snd];
    [|by constructor].
  rewrite trace_of_bind. cbn [parsing trace_of result_of heap_of fst snd app
    flat_map parsed_of_cycle].
  constructor; [by eapply Hservice|].
  destruct (parse parts _ text) as [[tool_name tool_input|answer]|e];
    [|by constructor..].
  rewrite trace_of_bind, flat_map_app, dispatch_parsed. cbn [app].
  destruct (result_of (dispatch _ _ _ _)) as [[observed|message]|e];
    [apply IH| |by constructor].
  destruct (bool_decide _); [by constructor|apply IH].
Qed.

Lemma tool_agent_loop_stops inputs h :
  Forall (λ stop_sequences, stop_sequences = stop (agent agent_executor))
    (flat_map stops_of_cycle
       (trace_of (tool_agent_loop parts agent_executor inputs h))).
Proof.
  unfold tool_agent_loop. destruct (h !! inputs) as [d|]; [|by constructor].
  rewrite trace_of_bind, flat_map_app.
  apply Forall_app. split; [apply cycle_stops|].
  destruct (result_of _); by constructor.
Qed.

Lemma tool_agent_loop_parsed (answered : string → Prop) inputs h :
  (∀ prompt_text h text h',
     complete parts prompt_text (stop (agent agent_executor)) h
       = (Returns text, h') → answered text) →
  Forall answered
    (flat_map parsed_of_cycle
       (trace_of (tool_agent_loop parts agent_executor inputs h))).
Proof.
  intros Hservice.
  unfold tool_agent_loop. destruct (h !! inputs) as [d|]; [|by constructor].
  rewrite trace_of_bind, flat_map_app.
  apply Forall_app. split; [by apply cycle_parsed|].
  destruct (result_of _); by constructor.
Qed.

End Cycle.

(** C6: with the cycle of section 4.3 for executor and a completion service
    that honours its stop sequences as section 6 asks, every completion the
    tool agent requests in a turn is requested with the one stop sequence
    of line 67, a line break followed by "Observation:", and every text
    handed to the parser is what came back from such a request, cut before
    that marker: the marker occurs in none of them.  This holds whatever
    the hooks, the tools, the rendering, the model and the parser do. *)
Theorem C6_every_completion_stops_at_observation
    (parts : LoopParts) (mad_hatter : MadHatter) (agent_input : loc)
    (h : Heap) :
  honours_stop_sequences (complete parts) →
  let events :=
    trace_of (execute_agent mad_hatter (loop_library parts) agent_input h) in
  Forall (λ stop_sequences, stop_sequences = [OBSERVATION_MARKER])
    (requested_stops events) ∧
  Forall (λ text, occurs_in OBSERVATION_MARKER text = false)
    (parsed_texts events).
Proof.
  intros Hservice events. unfold events.
  rewrite <- requested_stops_executor_calls, <- parsed_texts_executor_calls.
  destruct (execute_agent_executor_calls mad_hatter (loop_library parts)
              agent_input h) as [->|(registry & h' & ->)];
    [split; by constructor|].
  cbn [requested_stops parsed_texts flat_map]. rewrite !app_nil_r. split.
  - apply (tool_agent_loop_stops parts (tool_agent_executor registry)).
  - apply (tool_agent_loop_parsed parts (tool_agent_executor registry)).
    intros prompt_text h0 text h1 Hcomplete.
    apply (Hservice prompt_text [OBSERVATION_MARKER] h0 text h1 Hcomplete).
    + by left.
    + done.
Qed.

(** At work: the model makes up an observation after its action; the
    service cuts it, and the parser is given the action alone. *)
Lemma C6_every_completion_stops_at_observation_witness :
  let events :=
    trace_of
      (execute_agent
         (plain_hatter "You are the Cat. " "" "{input}" id [clock])
         (loop_library truncating_parts) the_input start) in
  (Forall (λ stop_sequences, stop_sequences = [OBSERVATION_MARKER])
     (requested_stops events) ∧
   Forall (λ text, occurs_in OBSERVATION_MARKER text = false)
     (parsed_texts events)) ∧
  occurs_in OBSERVATION_MARKER made_up_generation = true ∧
  parsed_texts events = [asked_action; "Final Answer: noon"].
Proof.
  intros events. split.
  - apply (C6_every_completion_stops_at_observation truncating_parts).
    apply truncating_parts_honour_stop_sequences.
  - split; vm_compute; reflexivity.
Defined.

(** The cycle at work: two completions, the clock called in between. *)
Example two_cycles_of_the_clock :
  let run :=
    execute_agent (plain_hatter "You are the Cat. " "" "{input}" id [clock])
      (loop_library clock_parts) the_input start in
  requested_stops (trace_of run)
    = [[OBSERVATION_MARKER]; [OBSERVATION_MARKER]] ∧
  default ∅ (heap_of run !! 2%positive) !! "output" = Some (VStr "noon") ∧
  default ∅ (heap_of run !! 2%positive) !! "intermediate_steps"
    = Some (VSteps [a_step]).
Proof. repeat split; vm_compute; reflexivity. Qed.

(** ** Failures of the memory chain *)

Lemma reaches_fallback_no_chain_call library agent_input registry h events h' :
  reaches_fallback library agent_input registry h events h' →
  chain_calls events = [].
Proof.
  by intros [(_ & -> & _)|(_ & out & cycles & record & _ & _ & _ & ->)].
Qed.

(** C7: when the turn comes to the memory chain, no tool being allowed or
    the tool agent having answered the sentinel, and the memory chain
    raises, [execute_agent] raises the same error from the same store; the
    memory chain was called once and nothing is tried after it. *)
Theorem C7_memory_chain_failure_propagates
    (mad_hatter : MadHatter) (library : Library) (agent_input : loc)
    (h : Heap) (prefix instructions suffix : string) (registry : list Tool)
    (h5 : Heap) (events : list Event) (h6 : Heap) (e : exn) (h7 : Heap)
    (last : list Event) :
  hooks_yield mad_hatter h prefix instructions suffix registry h5 →
  reaches_fallback library agent_input registry h5 events h6 →
  execute_memory_chain library agent_input prefix suffix h6
    = (Raises e, h7, last) →
  execute_agent mad_hatter library agent_input h
    = (Raises e, h7, events ++ last) ∧
  chain_calls (events ++ last)
    = [LLMChainCall (memory_chain prefix suffix) agent_input] ∧
  last = [LLMChainCall (memory_chain prefix suffix) agent_input].
Proof.
  intros Hhooks Hreach Hchain.
  assert (Hlast : last = [LLMChainCall (memory_chain prefix suffix) agent_input]).
  { rewrite <- (execute_memory_chain_trace library agent_input prefix suffix h6).
    by rewrite Hchain. }
  split; [|split; [|done]].
  - rewrite (execute_agent_after_hooks _ _ _ _ _ _ _ _ _ Hhooks).
    rewrite (choose_answer_fallback _ _ _ _ _ _ _ _ Hreach).
    by rewrite Hchain.
  - rewrite chain_calls_app, (reaches_fallback_no_chain_call _ _ _ _ _ _ Hreach).
    by rewrite Hlast.
Qed.

(** At work: the tool agent answers the sentinel after one step, and the
    language model is unavailable when the memory chain calls it. *)
Lemma C7_memory_chain_failure_propagates_witness :
  result_of
    (execute_agent (plain_hatter "You are the Cat. " "" "{input}" id [clock])
       (scripted_library (Returns ("?", [a_step])) (Raises unavailable))
       the_input start)
  = Raises unavailable.
Proof.
  pose (library :=
    scripted_library (Returns ("?", [a_step])) (Raises unavailable)).
  pose (tool_run := call_agent_executor library (tool_agent_executor [clock])
                      the_input start).
  pose (chain_run := execute_memory_chain library the_input
                       "You are the Cat. " "{input}" (heap_of tool_run)).
  destruct (C7_memory_chain_failure_propagates
    (plain_hatter "You are the Cat. " "" "{input}" id [clock]) library
    the_input start "You are the Cat. " "" "{input}" [clock] start
    (tool_agent_events the_input [clock] []) (heap_of tool_run)
    unavailable (heap_of chain_run) (trace_of chain_run)) as [Hrun _].
  - apply hooks_yield_plain.
  - right. split; [done|].
    exists 2%positive, [], (default ∅ (heap_of tool_run !! 2%positive)).
    split; [apply run_eq; vm_compute; reflexivity|].
    split; [apply lookup_by_default; vm_compute; reflexivity|].
    split; [vm_compute; reflexivity|done].
  - apply run_eq; [vm_compute; reflexivity|done].
  - unfold library in Hrun. by rewrite Hrun.
Defined.

(** ** A call of the memory chain that returns *)

Lemma execute_memory_chain_returns library agent_input prefix suffix h out
    h1 (record : Dict) text :
  call_llm_chain library (memory_chain prefix suffix) agent_input h
    = (Returns out, h1) →
  h1 !! out = Some record →
  record !! "text" = Some text →
  execute_memory_chain library agent_input prefix suffix h
  = (Returns out, <[out := <["output" := text]> record]> h1,
     [LLMChainCall (memory_chain prefix suffix) agent_input]).
Proof.
  intros Hcall Hrecord Htext.
  rewrite execute_memory_chain_run, Hcall.
  unfold getitem, setitem, bind, ret, after; cbn.
  rewrite Hrecord, Htext. cbn. by rewrite Hrecord.
Qed.

(** ** The prompt of the tool agent *)



(** ** The dict of the caller *)

Lemma bind_keeps {E A B} (l : loc) (m : M E A) (k : A → M E B)
    (Q : A → Prop) :
  (∀ h, heap_of (m h) !! l = h !! l) →
  (∀ h a, result_of (m h) = Returns a → Q a) →
  (∀ a, Q a → ∀ h, heap_of (k a h) !! l = h !! l) →
  ∀ h, heap_of (bind m k h) !! l = h !! l.
Proof.
  intros Hm HQ Hk h. unfold bind.
  specialize (Hm h). specialize (HQ h).
  destruct (m h) as [[[a|e] h1] t1]; cbn in *; [|done].
  specialize (Hk a (HQ a eq_refl) h1).
  destruct (k a h1) as [[r h2] t2]. cbn in *. congruence.
Qed.

Lemma bind_keeps_any {E A B} (l : loc) (m : M E A) (k : A → M E B) :
  (∀ h, heap_of (m h) !! l = h !! l) →
  (∀ a h, heap_of (k a h) !! l = h !! l) →
  ∀ h, heap_of (bind m k h) !! l = h !! l.
Proof.
  intros Hm Hk. apply (bind_keeps l m k (λ _, True)); auto.
Qed.

Lemma silent_keeps {E A} (l : loc) (f : Heap → outcome A * Heap) :
  keeps l f → ∀ h, heap_of (silent (E := E) f h) !! l = h !! l.
Proof.
  intros Hf h. specialize (Hf h). unfold silent.
  by destruct (f h) as [r h1].
Qed.

Lemma getitem_keeps {E} (l d : loc) (key : string) (h : Heap) :
  heap_of (getitem (E := E) d key h) !! l = h !! l.
Proof.
  unfold getitem. destruct (h !! d) as [m|]; [|done]. by destruct (m !! key).
Qed.

Lemma setitem_keeps {E} (l d : loc) (key : string) (v : value) :
  d ≠ l → ∀ h, heap_of (setitem (E := E) d key v h) !! l = h !! l.
Proof.
  intros Hne h. unfold setitem. destruct (h !! d) as [m|]; [|done].
  cbn. by rewrite lookup_insert_ne.
Qed.

Lemma execute_tool_agent_keeps library agent_input registry :
  (∀ agent_executor h,
     heap_of (call_agent_executor library agent_executor agent_input h)
       !! agent_input = h !! agent_input) →
  ∀ h, heap_of (execute_tool_agent library agent_input registry h)
         !! agent_input = h !! agent_input.
Proof.
  intros Hcall h. rewrite execute_tool_agent_run.
  specialize (Hcall (tool_agent_executor registry) h).
  by destruct (call_agent_executor _ _ _ _) as [[r h1] cycles].
Qed.

Lemma execute_memory_chain_keeps library agent_input prefix suffix :
  (∀ chain, keeps agent_input (call_llm_chain library chain agent_input)) →
  (∀ chain h out,
     fst (call_llm_chain library chain agent_input h) = Returns out →
     out ≠ agent_input) →
  ∀ h, heap_of (execute_memory_chain library agent_input prefix suffix h)
         !! agent_input = h !! agent_input.
Proof.
  intros Hkeeps Hnew. unfold execute_memory_chain.
  apply (bind_keeps _ _ _ (λ out, out ≠ agent_input)).
  - intros h. unfold run_chain. specialize (Hkeeps (memory_chain prefix suffix) h).
    by destruct (call_llm_chain _ _ _ _) as [r h1].
  - intros h out. unfold run_chain.
    specialize (Hnew (memory_chain prefix suffix) h out).
    destruct (call_llm_chain _ _ _ _) as [r h1]. cbn in *. done.
  - intros out Hout. apply bind_keeps_any; [apply getitem_keeps|].
    intros text. apply bind_keeps_any; [by apply setitem_keeps|done].
Qed.

(** C8: when the collaborators leave the dict of the caller alone, each
    hook, the agent executor and the chain keeping it as it is and the
    chain answering in a dict of its own, [execute_agent] leaves it as it
    is, however the turn ends: the one write of the source, of the text to
    the output, goes to the record the chain returned. *)
Theorem C8_agent_input_is_left_unchanged
    (mad_hatter : MadHatter) (library : Library) (agent_input : loc) :
  keeps agent_input (agent_prompt_prefix mad_hatter) →
  keeps agent_input (agent_prompt_instructions mad_hatter) →
  keeps agent_input (agent_prompt_suffix mad_hatter) →
  (∀ variables text,
     keeps agent_input (before_agent_creates_prompt mad_hatter variables text)) →
  keeps agent_input (agent_allowed_tools mad_hatter) →
  (∀ agent_executor h,
     heap_of (call_agent_executor library agent_executor agent_input h)
       !! agent_input = h !! agent_input) →
  (∀ chain, keeps agent_input (call_llm_chain library chain agent_input)) →
  (∀ chain h out,
     fst (call_llm_chain library chain agent_input h) = Returns out →
     out ≠ agent_input) →
  ∀ h, heap_of (execute_agent mad_hatter library agent_input h) !! agent_input
       = h !! agent_input.
Proof.
  intros Hprefix Hinstructions Hsuffix Hvariables Htools Hexecutor Hchain Hnew.
  unfold execute_agent.
  apply bind_keeps_any; [by apply silent_keeps|]. intros prefix.
  apply bind_keeps_any; [by apply silent_keeps|]. intros instructions.
  apply bind_keeps_any; [by apply silent_keeps|]. intros suffix.
  apply bind_keeps_any; [by apply silent_keeps|]. intros variables.
  apply bind_keeps_any; [by apply silent_keeps|]. intros registry.
  unfold choose_answer. apply bind_keeps_any.
  - destruct (bool_decide _); [|done].
    apply bind_keeps_any; [by apply execute_tool_agent_keeps|].
    intros out. apply bind_keeps_any; [apply getitem_keeps|done].
  - intros [out enough]; cbn. destruct enough; cbn.
    + by destruct out.
    + apply bind_keeps_any; [by apply execute_memory_chain_keeps|done].
Qed.

Lemma constant_keeps {A} (l : loc) (a : A) : keeps l (constant a).
Proof. by intros h. Qed.

Lemma fresh_is_new (h : Heap) (l : loc) : is_Some (h !! l) → fresh (dom h) ≠ l.
Proof.
  intros Hl Heq. apply elem_of_dom in Hl. rewrite <- Heq in Hl.
  by apply is_fresh in Hl.
Qed.

Lemma scripted_executor_keeps script agent_executor (l : loc) (h : Heap) :
  heap_of (scripted_executor script agent_executor l h) !! l = h !! l.
Proof.
  unfold scripted_executor. destruct script as [run|e]; [|done].
  destruct (h !! l) as [d|] eqn:Hl; [|done].
  unfold alloc, heap_of; cbn. rewrite lookup_insert_ne; [done|].
  apply fresh_is_new. by rewrite Hl.
Qed.

Lemma scripted_chain_keeps script chain (l : loc) :
  keeps l (scripted_chain script chain l).
Proof.
  intros h. unfold scripted_chain. destruct script as [text|e]; [|done].
  destruct (h !! l) as [d|] eqn:Hl; [|done].
  cbn. rewrite lookup_insert_ne; [done|].
  apply fresh_is_new. by rewrite Hl.
Qed.

Lemma scripted_chain_answers_in_a_new_dict script chain (l : loc) (h : Heap)
    (out : loc) :
  fst (scripted_chain script chain l h) = Returns out → out ≠ l.
Proof.
  unfold scripted_chain. destruct script as [text|e]; [|done].
  destruct (h !! l) as [d|] eqn:Hl; [|done].
  cbn. intros [= <-]. apply fresh_is_new. by rewrite Hl.
Qed.

(** At work: a turn through the tool agent and the memory chain. *)
Lemma C8_agent_input_is_left_unchanged_witness :
  heap_of
    (execute_agent (plain_hatter "You are the Cat. " "" "{input}" id [clock])
       (scripted_library (Returns ("?", [a_step])) (Returns "hello"))
       the_input start) !! the_input
  = start !! the_input.
Proof.
  apply (C8_agent_input_is_left_unchanged
    (plain_hatter "You are the Cat. " "" "{input}" id [clock])
    (scripted_library (Returns ("?", [a_step])) (Returns "hello")) the_input).
  - apply constant_keeps.
  - apply constant_keeps.
  - apply constant_keeps.
  - intros variables text. apply constant_keeps.
  - apply constant_keeps.
  - intros agent_executor h. apply scripted_executor_keeps.
  - intros chain. apply scripted_chain_keeps.
  - intros chain h out. apply scripted_chain_answers_in_a_new_dict.
Defined.

(** The condition on the chain is needed: a chain that answers in the dict
    it was given has the source write the output into the dict of the
    caller. *)
Example in_place_chain_writes_to_agent_input :
  let library := {|
    call_agent_executor := scripted_executor (Raises malformed);
    call_llm_chain := in_place_chain "hello"
  |} in
  let run :=
    execute_agent (plain_hatter "You are the Cat. " "" "{input}" id [])
      library the_input start in
  result_of run = Returns the_input ∧
  start !! the_input = Some question ∧
  question !! "output" = None ∧
  default ∅ (heap_of run !! the_input) !! "output" = Some (VStr "hello").
Proof. repeat split; vm_compute; reflexivity. Qed.

(** ** What the turn returns after an inconclusive tool agent *)

(** C10: when the tool agent answered the sentinel, with whatever steps in
    its record, and the collaborators keep to their contracts as for C8
    (the hooks and the tool agent leave the dict of the caller as it is,
    the chain answers in a record with the inputs it was given and the
    text), [execute_agent] returns the reference of the chain, and the
    record behind it is the dict of the caller with the text under text and
    under output.  Every entry of it is an entry of the caller or the text:
    the record of the tool agent is read for its output only, and its steps
    are nowhere in what is returned unless the caller had them. *)
Theorem C10_fallback_record_is_the_chain_record
    (mad_hatter : MadHatter) (library : Library) (agent_input : loc)
    (h : Heap) (prefix instructions suffix : string) (registry : list Tool)
    (h5 : Heap) (out : loc) (h6 : Heap) (cycles : list LoopEvent)
    (record : Dict) (steps : list ScratchpadEntry) (given : Dict)
    (answer : loc) (h7 : Heap) (text : string) :
  hooks_yield mad_hatter h prefix instructions suffix registry h5 →
  registry ≠ [] →
  call_agent_executor library (tool_agent_executor registry) agent_input h5
    = (Returns out, h6, cycles) →
  h6 !! out = Some record →
  record !! "output" = Some (VStr "?") →
  record !! "intermediate_steps" = Some (VSteps steps) →
  h !! agent_input = Some given →
  h6 !! agent_input = h !! agent_input →
  call_llm_chain library (memory_chain prefix suffix) agent_input h6
    = (Returns answer, h7) →
  (∀ inputs : Dict,
     h6 !! agent_input = Some inputs →
     h7 !! answer = Some (<["text" := VStr text]> inputs)) →
  let run := execute_agent mad_hatter library agent_input h in
  let returned : Dict :=
    <["output" := VStr text]> (<["text" := VStr text]> given) in
  result_of run = Returns answer ∧
  heap_of run = <[answer := returned]> h7 ∧
  heap_of run !! answer = Some returned ∧
  (∀ key v,
     returned !! key = Some v → v = VStr text ∨ given !! key = Some v) ∧
  returned !! "intermediate_steps" = given !! "intermediate_steps" ∧
  (map_Forall (λ _ v, v ≠ VSteps steps) given →
   map_Forall (λ _ v, v ≠ VSteps steps) returned) ∧
  run = after (tool_agent_events agent_input registry cycles)
          (execute_memory_chain library agent_input prefix suffix h6).
Proof.
  intros Hhooks Hne Hcall Hrecord Houtput Hsteps Hgiven Hkept Hchain Hcontract
    run returned.
  assert (Hrun : run = after (tool_agent_events agent_input registry cycles)
            (execute_memory_chain library agent_input prefix suffix h6)).
  { unfold run. rewrite (execute_agent_after_hooks _ _ _ _ _ _ _ _ _ Hhooks).
    apply choose_answer_fallback. right. split; [done|].
    by exists out, cycles, record. }
  rewrite Hgiven in Hkept. specialize (Hcontract given Hkept).
  pose proof (execute_memory_chain_returns library agent_input prefix suffix
                h6 answer h7 (<["text" := VStr text]> given) (VStr text)
                Hchain Hcontract (lookup_insert_eq _ _ _)) as Hmemory.
  fold returned in Hmemory. rewrite Hrun, Hmemory. cbn.
  split; [done|]. split; [done|]. split; [apply lookup_insert_eq|].
  split; [|split; [|split; [|done]]].
  - intros key v. unfold returned.
    destruct (decide (key = "output")) as [->|Hnot_output].
    { rewrite lookup_insert_eq. intros [= <-]. by left. }
    rewrite lookup_insert_ne by done.
    destruct (decide (key = "text")) as [->|Hnot_text].
    { rewrite lookup_insert_eq. intros [= <-]. by left. }
    rewrite lookup_insert_ne by done. by right.
  - unfold returned. by rewrite !lookup_insert_ne.
  - intros Hnone. unfold returned.
    apply map_Forall_insert_2; [done|]. by apply map_Forall_insert_2.
Qed.

Lemma scripted_chain_answer (text : string) chain (l : loc) (h : Heap)
    (d : Dict) :
  h !! l = Some d →
  snd (scripted_chain (Returns text) chain l h) !! fresh (dom h)
  = Some (<["text" := VStr text]> d).
Proof.
  intros Hl. unfold scripted_chain. rewrite Hl. cbn.
  apply lookup_insert_eq.
Qed.

Lemma question_holds_texts (steps : list ScratchpadEntry) :
  map_Forall (λ _ v, v ≠ VSteps steps) question.
Proof.
  unfold question. repeat (apply map_Forall_insert_2; [done|]).
  apply map_Forall_empty.
Qed.

(** At work: the tool agent answers the sentinel after one step on the
    clock; the record the turn returns is the chain's, and the step is
    nowhere in it. *)
Lemma C10_fallback_record_is_the_chain_record_witness :
  let run :=
    execute_agent (plain_hatter "You are the Cat. " "" "{input}" id [clock])
      (scripted_library (Returns ("?", [a_step])) (Returns "hello"))
      the_input start in
  result_of run = Returns 3%positive ∧
  map_Forall (λ _ v, v ≠ VSteps [a_step])
    (default ∅ (heap_of run !! 3%positive)) ∧
  default ∅ (heap_of run !! 3%positive) !! "intermediate_steps" = None.
Proof.
  intros run.
  pose (library := scripted_library (Returns ("?", [a_step])) (Returns "hello")).
  pose (tool_run := call_agent_executor library (tool_agent_executor [clock])
                      the_input start).
  pose (chain_run := call_llm_chain library
                       (memory_chain "You are the Cat. " "{input}")
                       the_input (heap_of tool_run)).
  assert (Hfresh : fresh (dom (heap_of tool_run)) = 3%positive)
    by (vm_compute; reflexivity).
  destruct (C10_fallback_record_is_the_chain_record
    (plain_hatter "You are the Cat. " "" "{input}" id [clock]) library
    the_input start "You are the Cat. " "" "{input}" [clock] start
    2%positive (heap_of tool_run) []
    (default ∅ (heap_of tool_run !! 2%positive)) [a_step] question
    3%positive (snd chain_run) "hello")
    as (Hresult & _ & Hrecord & _ & Hsteps & Habsent & _).
  - apply hooks_yield_plain.
  - done.
  - apply run_eq; vm_compute; reflexivity.
  - apply lookup_by_default. vm_compute. reflexivity.
  - vm_compute. reflexivity.
  - vm_compute. reflexivity.
  - apply lookup_singleton_eq.
  - apply scripted_executor_keeps.
  - apply call_eq. vm_compute. reflexivity.
  - intros inputs Hinputs. rewrite <- Hfresh.
    by apply scripted_chain_answer.
  - unfold library in Hresult, Hrecord. unfold run.
    split; [exact Hresult|].
    rewrite Hrecord. cbn [from_option id]. split.
    + apply Habsent, question_holds_texts.
    + rewrite Hsteps. vm_compute. reflexivity.
Defined.

(** * Further properties of the three methods *)

(** ** How a call of the memory chain can end *)

Lemma execute_memory_chain_cases library agent_input prefix suffix h :
  let run := execute_memory_chain library agent_input prefix suffix h in
  let call := call_llm_chain library (memory_chain prefix suffix)
                agent_input h in
  let events := [LLMChainCall (memory_chain prefix suffix) agent_input] in
  (∃ e h1, call = (Raises e, h1) ∧ run = (Raises e, h1, events)) ∨
  (∃ out h1, call = (Returns out, h1) ∧
     ((h1 !! out = None ∧
       run = (Raises (TypeError "object is not subscriptable"), h1, events)) ∨
      (∃ record : Dict, h1 !! out = Some record ∧
         ((record !! "text" = None ∧
           run = (Raises (KeyError "text"), h1, events)) ∨
          (∃ text, record !! "text" = Some text ∧
             run = (Returns out, <[out := <["output" := text]> record]> h1,
                    events)))))).
Proof.
  intros run call events. unfold run.
  rewrite execute_memory_chain_run. fold call.
  destruct call as [[out|e] h1] eqn:Hcall; [right|left; by eexists _, _].
  exists out, h1. split; [done|].
  unfold getitem, setitem, bind, ret, after; cbn.
  destruct (h1 !! out) as [record|] eqn:Hrecord; [right|by left].
  exists record. split; [done|].
  destruct (record !! "text") as [text|] eqn:Htext; [right|by left].
  exists text. split; [done|]. cbn. by rewrite Hrecord.
Qed.

(** X1: when the chain returns a record that has no text, the memory chain
    raises KeyError on text, after its one chain call, and leaves the store
    as the chain left it: no output is written. *)
Theorem X1_memory_chain_without_text_raises_KeyError
    (library : Library) (agent_input : loc) (prefix suffix : string)
    (h : Heap) (out : loc) (h1 : Heap) (record : Dict) :
  let chain := {|
    prompt := PlainPrompt {|
      template := prefix +:+ suffix;
      input_variables :=
        ["input"; "chat_history"; "episodic_memory"; "declarative_memory"]
    |};
    chain_verbose := true
  |} in
  call_llm_chain library chain agent_input h = (Returns out, h1) →
  h1 !! out = Some record →
  record !! "text" = None →
  execute_memory_chain library agent_input prefix suffix h
    = (Raises (KeyError "text"), h1, [LLMChainCall chain agent_input]).
Proof.
  intros chain Hcall Hrecord Htext.
  rewrite execute_memory_chain_run.
  change (memory_chain prefix suffix) with chain. rewrite Hcall.
  unfold getitem, setitem, bind, ret, after; cbn.
  by rewrite Hrecord, Htext.
Qed.

(** At work: the chain answers with a copy of the inputs. *)
Lemma X1_memory_chain_without_text_raises_KeyError_witness :
  result_of
    (execute_memory_chain copying_library the_input "You are the Cat. "
       "{input}" start)
  = Raises (KeyError "text").
Proof.
  pose (call := call_llm_chain copying_library
                  (memory_chain "You are the Cat. " "{input}")
                  the_input start).
  rewrite (X1_memory_chain_without_text_raises_KeyError copying_library
    the_input "You are the Cat. " "{input}" start 2%positive (snd call)
    (default ∅ (snd call !! 2%positive))).
  - done.
  - apply call_eq. vm_compute. reflexivity.
  - apply lookup_by_default. vm_compute. reflexivity.
  - vm_compute. reflexivity.
Defined.

(** ** How the choice can end *)

Lemma choose_answer_tools_no_dict library agent_input prefix suffix registry
    h out h1 cycles :
  registry ≠ [] →
  call_agent_executor library (tool_agent_executor registry) agent_input h
    = (Returns out, h1, cycles) →
  h1 !! out = None →
  choose_answer library agent_input prefix suffix registry h
  = (Raises (TypeError "object is not subscriptable"), h1,
     tool_agent_events agent_input registry cycles).
Proof.
  intros Hne Hcall Hnone. unfold choose_answer.
  rewrite (bool_decide_nonempty _ Hne).
  erewrite bind_raises; [done|].
  erewrite bind_returns
    by (rewrite execute_tool_agent_run, Hcall; reflexivity).
  unfold getitem, bind, after; cbn. rewrite Hnone. cbn.
  by rewrite ?app_nil_r.
Qed.

Lemma choose_answer_tools_no_output library agent_input prefix suffix
    registry h out h1 cycles (record : Dict) :
  registry ≠ [] →
  call_agent_executor library (tool_agent_executor registry) agent_input h
    = (Returns out, h1, cycles) →
  h1 !! out = Some record →
  record !! "output" = None →
  choose_answer library agent_input prefix suffix registry h
  = (Raises (KeyError "output"), h1,
     tool_agent_events agent_input registry cycles).
Proof.
  intros Hne Hcall Hrecord Hnone. unfold choose_answer.
  rewrite (bool_decide_nonempty _ Hne).
  erewrite bind_raises; [done|].
  erewrite bind_returns
    by (rewrite execute_tool_agent_run, Hcall; reflexivity).
  unfold getitem, bind, after; cbn. rewrite Hrecord, Hnone. cbn.
  by rewrite ?app_nil_r.
Qed.

(** X2: with a non-empty list of allowed tools, when the tool agent returns
    a record that has no output, [execute_agent] raises KeyError on output
    from the store the tool agent left, and the memory chain is not run. *)
Theorem X2_tool_record_without_output_raises_KeyError
    (mad_hatter : MadHatter) (library : Library) (agent_input : loc)
    (h : Heap) (prefix instructions suffix : string) (registry : list Tool)
    (h5 : Heap) (out : loc) (h6 : Heap) (cycles : list LoopEvent)
    (record : Dict) :
  hooks_yield mad_hatter h prefix instructions suffix registry h5 →
  registry ≠ [] →
  call_agent_executor library (tool_agent_executor registry) agent_input h5
    = (Returns out, h6, cycles) →
  h6 !! out = Some record →
  record !! "output" = None →
  execute_agent mad_hatter library agent_input h
    = (Raises (KeyError "output"), h6,
       tool_agent_events agent_input registry cycles) ∧
  chain_calls (trace_of (execute_agent mad_hatter library agent_input h))
    = [].
Proof.
  intros Hhooks Hne Hcall Hrecord Hnone.
  rewrite (execute_agent_after_hooks _ _ _ _ _ _ _ _ _ Hhooks).
  by rewrite (choose_answer_tools_no_output _ _ _ _ _ _ _ _ _ _
                Hne Hcall Hrecord Hnone).
Qed.

(** At work: the executor answers with a copy of the inputs. *)
Lemma X2_tool_record_without_output_raises_KeyError_witness :
  result_of
    (execute_agent (plain_hatter "You are the Cat. " "" "{input}" id [clock])
       copying_library the_input start)
  = Raises (KeyError "output").
Proof.
  pose (tool_run := call_agent_executor copying_library
                      (tool_agent_executor [clock]) the_input start).
  destruct (X2_tool_record_without_output_raises_KeyError
    (plain_hatter "You are the Cat. " "" "{input}" id [clock])
    copying_library the_input start "You are the Cat. " "" "{input}" [clock]
    start 2%positive (heap_of tool_run) []
    (default ∅ (heap_of tool_run !! 2%positive))) as [Hrun _].
  - apply hooks_yield_plain.
  - done.
  - apply run_eq; vm_compute; reflexivity.
  - apply lookup_by_default. vm_compute. reflexivity.
  - vm_compute. reflexivity.
  - by rewrite Hrun.
Defined.

(** ** Hooks that raise *)

(** The hooks all return or one of them raises. *)
Lemma hooks_yield_or_fail mad_hatter h :
  (∃ e h', hooks_fail mad_hatter h e h') ∨
  (∃ prefix instructions suffix registry h',
     hooks_yield mad_hatter h prefix instructions suffix registry h').
Proof.
  unfold hooks_fail, hooks_yield.
  destruct (agent_prompt_prefix mad_hatter h) as [[prefix|e] h1] eqn:H1;
    [|left; eexists _, _; by left].
  destruct (agent_prompt_instructions mad_hatter h1)
    as [[instructions|e] h2] eqn:H2;
    [|left; eexists _, _; right; eexists _, _; split; [done|]; by left].
  destruct (agent_prompt_suffix mad_hatter h2) as [[suffix|e] h3] eqn:H3;
    [|left; eexists _, _; right; eexists _, _; split; [done|];
      right; eexists _, _; split; [done|]; by left].
  destruct (before_agent_creates_prompt mad_hatter
              ["input"; "chat_history"; "episodic_memory";
               "declarative_memory"; "agent_scratchpad"]
              (join " " [prefix; instructions; suffix]) h3)
    as [[variables|e] h4] eqn:H4;
    [|left; eexists _, _; right; eexists _, _; split; [done|];
      right; eexists _, _; split; [done|];
      right; eexists _, _; split; [done|]; by left].
  destruct (agent_allowed_tools mad_hatter h4) as [[registry|e] h5] eqn:H5.
  - right. exists prefix, instructions, suffix, registry, h5.
    by exists h1, h2, h3, h4, variables.
  - left. eexists _, _; right; eexists _, _; split; [done|];
      right; eexists _, _; split; [done|];
      right; eexists _, _; split; [done|]; right. by eexists _, _.
Qed.

Lemma execute_agent_after_failing_hook
    (mad_hatter : MadHatter) (library : Library) (agent_input : loc)
    (h : Heap) (e : exn) (h' : Heap) :
  hooks_fail mad_hatter h e h' →
  execute_agent mad_hatter library agent_input h = (Raises e, h', []).
Proof.
  unfold hooks_fail, execute_agent.
  intros [H1|(prefix & h1 & H1 &
    [H2|(instructions & h2 & H2 &
      [H3|(suffix & h3 & H3 &
        [H4|(variables & h4 & H4 & H5)])])])].
  - erewrite bind_raises; [done|]. unfold silent. by rewrite H1.
  - erewrite bind_returns by (by apply silent_returns). rewrite after_nil.
    erewrite bind_raises; [done|]. unfold silent. by rewrite H2.
  - erewrite bind_returns by (by apply silent_returns). rewrite after_nil.
    erewrite bind_returns by (by apply silent_returns). rewrite after_nil.
    erewrite bind_raises; [done|]. unfold silent. by rewrite H3.
  - erewrite bind_returns by (by apply silent_returns). rewrite after_nil.
    erewrite bind_returns by (by apply silent_returns). rewrite after_nil.
    erewrite bind_returns by (by apply silent_returns). rewrite after_nil.
    erewrite bind_raises; [done|]. unfold silent. by rewrite H4.
  - erewrite bind_returns by (by apply silent_returns). rewrite after_nil.
    erewrite bind_returns by (by apply silent_returns). rewrite after_nil.
    erewrite bind_returns by (by apply silent_returns). rewrite after_nil.
    erewrite bind_returns by (by apply silent_returns). rewrite after_nil.
    erewrite bind_raises; [done|]. unfold silent. by rewrite H5.
Qed.

(** X3: when one of the five hooks raises, [execute_agent] raises the same
    error from the store that hook left, and neither the agent executor nor
    the chain has been called: the turn has no event at all. *)
Theorem X3_failing_hook_ends_the_turn_before_any_call
    (mad_hatter : MadHatter) (library : Library) (agent_input : loc)
    (h : Heap) (e : exn) (h' : Heap) :
  hooks_fail mad_hatter h e h' →
  execute_agent mad_hatter library agent_input h = (Raises e, h', []).
Proof. apply execute_agent_after_failing_hook. Qed.

(** At work: the hook on the allowed tools raises, the four hooks before it
    having returned. *)
Lemma X3_failing_hook_ends_the_turn_before_any_call_witness :
  execute_agent
    {| agent_prompt_prefix := constant "You are the Cat. ";
       agent_prompt_instructions := constant "";
       agent_prompt_suffix := constant "{input}";
       before_agent_creates_prompt := λ variables _, constant variables;
       agent_allowed_tools := failing forbidden |}
    (scripted_library (Returns ("42", [])) (Returns "hello"))
    the_input start
  = (Raises forbidden, start, []).
Proof.
  apply X3_failing_hook_ends_the_turn_before_any_call.
  unfold hooks_fail. right. eexists _, _. split; [reflexivity|].
  right. eexists _, _. split; [reflexivity|].
  right. eexists _, _. split; [reflexivity|].
  right. eexists _, _. split; reflexivity.
Defined.

(** ** Every way a turn can end *)

Lemma execute_agent_cases mad_hatter library agent_input h :
  (∃ e h',
     execute_agent mad_hatter library agent_input h = (Raises e, h', [])) ∨
  (∃ prefix instructions suffix registry h5,
     hooks_yield mad_hatter h prefix instructions suffix registry h5 ∧
     execute_agent mad_hatter library agent_input h
     = choose_answer library agent_input prefix suffix registry h5).
Proof.
  destruct (hooks_yield_or_fail mad_hatter h)
    as [(e & h' & Hfail)|(prefix & instructions & suffix & registry & h5 & Hyield)].
  - left. exists e, h'. by apply execute_agent_after_failing_hook.
  - right. exists prefix, instructions, suffix, registry, h5.
    split; [done|]. exact (execute_agent_after_hooks _ _ _ _ _ _ _ _ _ Hyield).
Qed.

Lemma choose_answer_cases library agent_input prefix suffix registry h :
  let run := choose_answer library agent_input prefix suffix registry h in
  (registry = [] ∧
   run = execute_memory_chain library agent_input prefix suffix h) ∨
  (registry ≠ [] ∧
   ∃ r h1 cycles,
     call_agent_executor library (tool_agent_executor registry) agent_input h
       = (r, h1, cycles) ∧
     let events := tool_agent_events agent_input registry cycles in
     match r with
     | Raises e => run = (Raises e, h1, events)
     | Returns out =>
         match h1 !! out with
         | None =>
             run = (Raises (TypeError "object is not subscriptable"), h1,
                    events)
         | Some record =>
             match record !! "output" with
             | None => run = (Raises (KeyError "output"), h1, events)
             | Some output =>
                 if value_neqb output (VStr "?") then
                   run = (Returns out, h1, events)
                 else
                   run = after events
                           (execute_memory_chain library agent_input prefix
                              suffix h1)
             end
         end
     end).
Proof.
  intros run. unfold run. destruct registry as [|tool registry].
  { left. split; [done|]. apply choose_answer_no_tool. }
  right. split; [done|].
  destruct (call_agent_executor library (tool_agent_executor (tool :: registry))
              agent_input h) as [[r h1] cycles] eqn:Hcall.
  exists r, h1, cycles. split; [done|]. cbn zeta.
  destruct r as [out|e].
  - destruct (h1 !! out) as [record|] eqn:Hrecord.
    + destruct (record !! "output") as [output|] eqn:Houtput.
      * rewrite (choose_answer_tools library agent_input prefix suffix
                   (tool :: registry) h out h1 cycles record output);
          [|done..].
        by destruct (value_neqb output (VStr "?")).
      * by apply choose_answer_tools_no_output with (out := out) (record := record).
    + by apply choose_answer_tools_no_dict with (out := out).
  - by apply choose_answer_tools_raise.
Qed.

Lemma execute_memory_chain_returns_record library agent_input prefix suffix
    h out :
  let run := execute_memory_chain library agent_input prefix suffix h in
  result_of run = Returns out →
  ∃ (record : Dict) text,
    heap_of run !! out = Some record ∧
    record !! "output" = Some text ∧ record !! "text" = Some text.
Proof.
  intros run. unfold run.
  destruct (execute_memory_chain_cases library agent_input prefix suffix h)
    as [(e & h1 & _ & ->)|(out' & h1 & _ &
         [[_ ->]|(record & Hrecord & [[_ ->]|(text & Htext & ->)])])];
    cbn; try done.
  intros [= ->]. exists (<["output" := text]> record), text.
  rewrite !lookup_insert_eq. split; [done|]. split; [done|].
  by rewrite lookup_insert_ne.
Qed.

(** X4: whenever [execute_agent] returns, the reference it returns is to a
    record of the store that has an output, whatever the hooks, the
    executor and the chain do: on the tool path the output was read, on the
    memory path it was written. *)
Theorem X4_returned_record_has_an_output
    (mad_hatter : MadHatter) (library : Library) (agent_input : loc)
    (h : Heap) (out : loc) :
  result_of (execute_agent mad_hatter library agent_input h) = Returns out →
  ∃ (record : Dict) output,
    heap_of (execute_agent mad_hatter library agent_input h) !! out
      = Some record ∧
    record !! "output" = Some output.
Proof.
  destruct (execute_agent_cases mad_hatter library agent_input h)
    as [(e & h' & ->)|(prefix & instructions & suffix & registry & h5 & _ & ->)];
    [done|].
  assert (Hmemory : ∀ h1 events,
    result_of (after events
      (execute_memory_chain library agent_input prefix suffix h1))
      = Returns out →
    ∃ (record : Dict) output,
      heap_of (after events
        (execute_memory_chain library agent_input prefix suffix h1)) !! out
        = Some record ∧ record !! "output" = Some output).
  { intros h1 events. rewrite result_of_after, heap_of_after. intros Hout.
    destruct (execute_memory_chain_returns_record library agent_input prefix
                suffix h1 out Hout) as (record & text & ? & ? & _).
    by exists record, text. }
  destruct (choose_answer_cases library agent_input prefix suffix registry h5)
    as [[_ ->]|(_ & r & h1 & cycles & _ & Hrun)].
  { intros Hout. apply (Hmemory h5 []). by rewrite after_nil. }
  cbn zeta in Hrun. destruct r as [out'|e]; [|by rewrite Hrun].
  destruct (h1 !! out') as [record|] eqn:Hrecord; [|by rewrite Hrun].
  destruct (record !! "output") as [output|] eqn:Houtput; [|by rewrite Hrun].
  destruct (value_neqb output (VStr "?")); rewrite Hrun.
  - cbn. intros [= ->]. by exists record, output.
  - apply Hmemory.
Qed.

(** At work: the tool agent answers "42". *)
Lemma X4_returned_record_has_an_output_witness :
  ∃ (record : Dict) output,
    heap_of
      (execute_agent
         (plain_hatter "You are the Cat. " "" "{input}" id [clock])
         (scripted_library (Returns ("42", [])) (Returns "hello"))
         the_input start) !! 2%positive = Some record ∧
    record !! "output" = Some output.
Proof.
  apply X4_returned_record_has_an_output. vm_compute. reflexivity.
Defined.

(** X5: the sentinel does not come back from the tool path: when
    [execute_agent] returns without a call of the chain, the output of the
    record it returns is not the string "?". *)
Theorem X5_sentinel_never_returned_from_the_tool_path
    (mad_hatter : MadHatter) (library : Library) (agent_input : loc)
    (h : Heap) (out : loc) (record : Dict) :
  let run := execute_agent mad_hatter library agent_input h in
  result_of run = Returns out →
  chain_calls (trace_of run) = [] →
  heap_of run !! out = Some record →
  record !! "output" ≠ Some (VStr "?").
Proof.
  intros run. unfold run.
  destruct (execute_agent_cases mad_hatter library agent_input h)
    as [(e & h' & ->)|(prefix & instructions & suffix & registry & h5 & _ & ->)];
    [done|].
  assert (Hmemory : ∀ h1 events,
    chain_calls (trace_of (after events
      (execute_memory_chain library agent_input prefix suffix h1))) ≠ []).
  { intros h1 events. rewrite trace_of_after, chain_calls_app.
    rewrite execute_memory_chain_trace. cbn. by destruct (chain_calls events). }
  destruct (choose_answer_cases library agent_input prefix suffix registry h5)
    as [[_ ->]|(_ & r & h1 & cycles & _ & Hrun)].
  { intros _ Hcalls. destruct (Hmemory h5 []). by rewrite after_nil. }
  cbn zeta in Hrun. destruct r as [out'|e]; [|by rewrite Hrun].
  destruct (h1 !! out') as [record'|] eqn:Hrecord; [|by rewrite Hrun].
  destruct (record' !! "output") as [output|] eqn:Houtput; [|by rewrite Hrun].
  destruct (value_neqb output (VStr "?")) eqn:Hneq; rewrite Hrun.
  - cbn. intros [= ->] _. rewrite Hrecord. intros [= <-].
    rewrite Houtput. intros [= ->]. by rewrite value_neqb_refl in Hneq.
  - intros _ Hcalls. by destruct (Hmemory h1
      (tool_agent_events agent_input registry cycles)).
Qed.

(** At work: the tool agent answers "42" and the chain is not called. *)
Lemma X5_sentinel_never_returned_from_the_tool_path_witness :
  let run :=
    execute_agent (plain_hatter "You are the Cat. " "" "{input}" id [clock])
      (scripted_library (Returns ("42", [])) (Returns "hello"))
      the_input start in
  default ∅ (heap_of run !! 2%positive) !! "output" ≠ Some (VStr "?").
Proof.
  intros run.
  apply (X5_sentinel_never_returned_from_the_tool_path
    (plain_hatter "You are the Cat. " "" "{input}" id [clock])
    (scripted_library (Returns ("42", [])) (Returns "hello"))
    the_input start 2%positive).
  - vm_compute. reflexivity.
  - vm_compute. reflexivity.
  - apply lookup_by_default. vm_compute. reflexivity.
Defined.

(** X6: a turn calls the agent executor at most once and the chain at most
    once, the executor before the chain, each on the reference the caller
    gave and not on a copy, whatever the hooks, the executor and the chain
    do: its events are those of one tool-agent run or none, followed by one
    call of the chain or none. *)
Theorem X6_at_most_one_executor_call_then_one_chain_call
    (mad_hatter : MadHatter) (library : Library) (agent_input : loc)
    (h : Heap) :
  ∃ first last,
    trace_of (execute_agent mad_hatter library agent_input h)
      = first ++ last ∧
    (first = [] ∨
     ∃ registry cycles,
       first = [Log "Using prompt" "INFO"; Log TOOL_AGENT_TEMPLATE "INFO";
                AgentExecutorCall (tool_agent_executor registry) agent_input
                  cycles]) ∧
    (last = [] ∨ ∃ chain, last = [LLMChainCall chain agent_input]).
Proof.
  destruct (execute_agent_cases mad_hatter library agent_input h)
    as [(e & h' & ->)|(prefix & instructions & suffix & registry & h5 & _ & ->)].
  { exists [], []. split; [done|]. split; by left. }
  destruct (choose_answer_cases library agent_input prefix suffix registry h5)
    as [[_ ->]|(_ & r & h1 & cycles & _ & Hrun)].
  { exists [], [LLMChainCall (memory_chain prefix suffix) agent_input].
    rewrite execute_memory_chain_trace. split; [done|].
    split; [by left|right; by eexists]. }
  assert (Hfirst : ∃ registry' cycles',
    tool_agent_events agent_input registry cycles
    = [Log "Using prompt" "INFO"; Log TOOL_AGENT_TEMPLATE "INFO";
       AgentExecutorCall (tool_agent_executor registry') agent_input cycles'])
    by (by eexists _, _).
  assert (Halone : ∀ (r' : outcome loc) (h' : Heap),
    choose_answer library agent_input prefix suffix registry h5
      = (r', h', tool_agent_events agent_input registry cycles) →
    ∃ first last,
      trace_of (choose_answer library agent_input prefix suffix registry h5)
        = first ++ last ∧
      (first = [] ∨
       ∃ registry cycles,
         first = [Log "Using prompt" "INFO"; Log TOOL_AGENT_TEMPLATE "INFO";
                  AgentExecutorCall (tool_agent_executor registry)
                    agent_input cycles]) ∧
      (last = [] ∨ ∃ chain, last = [LLMChainCall chain agent_input])).
  { intros r' h' ->. exists (tool_agent_events agent_input registry cycles), [].
    split; [by rewrite app_nil_r|]. split; [by right|by left]. }
  cbn zeta in Hrun. destruct r as [out|e]; [|by eapply Halone].
  destruct (h1 !! out) as [record|]; [|by eapply Halone].
  destruct (record !! "output") as [output|]; [|by eapply Halone].
  destruct (value_neqb output (VStr "?")); [by eapply Halone|].
  rewrite Hrun, trace_of_after, execute_memory_chain_trace.
  exists (tool_agent_events agent_input registry cycles),
    [LLMChainCall (memory_chain prefix suffix) agent_input].
  split; [done|]. split; [by right|right; by eexists].
Qed.

(** ** What the memory chain writes *)

(** X7: when the chain returns a record with a text, the memory chain
    changes the store the chain left at one place only, the output of that
    record: every other dict is as the chain left it, every other entry of
    the record keeps its value, and an output the record already had is
    replaced by the text. *)
Theorem X7_memory_chain_writes_the_output_only
    (library : Library) (agent_input : loc) (prefix suffix : string)
    (h : Heap) (out : loc) (h1 : Heap) (record : Dict) (text : value) :
  let chain := {|
    prompt := PlainPrompt {|
      template := prefix +:+ suffix;
      input_variables :=
        ["input"; "chat_history"; "episodic_memory"; "declarative_memory"]
    |};
    chain_verbose := true
  |} in
  let run := execute_memory_chain library agent_input prefix suffix h in
  call_llm_chain library chain agent_input h = (Returns out, h1) →
  h1 !! out = Some record →
  record !! "text" = Some text →
  (∀ l, l ≠ out → heap_of run !! l = h1 !! l) ∧
  ∃ written : Dict,
    heap_of run !! out = Some written ∧
    written !! "output" = Some text ∧
    ∀ key, key ≠ "output" → written !! key = record !! key.
Proof.
  intros chain run Hcall Hrecord Htext. unfold run.
  rewrite (execute_memory_chain_returns library agent_input prefix suffix h
             out h1 record text Hcall Hrecord Htext).
  cbn. split.
  - intros l Hl. by rewrite lookup_insert_ne.
  - exists (<["output" := text]> record).
    rewrite !lookup_insert_eq. split; [done|]. split; [done|].
    intros key Hkey. by rewrite lookup_insert_ne.
Qed.

(** At work: the chain answers "hello" in a new dict; the dict of the
    caller is another one, and the input of the record is as it was. *)
Lemma X7_memory_chain_writes_the_output_only_witness :
  let run :=
    execute_memory_chain
      (scripted_library (Raises malformed) (Returns "hello"))
      the_input "You are the Cat. " "{input}" start in
  heap_of run !! the_input = start !! the_input ∧
  ∃ written : Dict,
    heap_of run !! 2%positive = Some written ∧
    written !! "output" = Some (VStr "hello") ∧
    written !! "input" = Some (VStr "What time is it?").
Proof.
  intros run.
  pose (library := scripted_library (Raises malformed) (Returns "hello")).
  pose (call := call_llm_chain library
                  (memory_chain "You are the Cat. " "{input}")
                  the_input start).
  destruct (X7_memory_chain_writes_the_output_only library the_input
    "You are the Cat. " "{input}" start 2%positive (snd call)
    (default ∅ (snd call !! 2%positive)) (VStr "hello"))
    as (Hothers & written & Hwritten & Houtput & Hkeys).
  - apply call_eq. vm_compute. reflexivity.
  - apply lookup_by_default. vm_compute. reflexivity.
  - vm_compute. reflexivity.
  - unfold library in Hothers, Hwritten. unfold run. split.
    + rewrite (Hothers the_input) by done.
      exact (scripted_chain_keeps (Returns "hello")
               (memory_chain "You are the Cat. " "{input}") the_input start).
    + exists written. split; [done|]. split; [done|].
      rewrite (Hkeys "input") by done. vm_compute. reflexivity.
Defined.

(** ** The format instructions *)

(** X8: the format instructions reach no prompt: two turns whose hooks
    answer the same prefix, suffix and tools from the same store, and
    different format instructions, are the same turn, with the same result,
    the same store and the same calls.  The instructions are read once, for
    the text the hook on the input variables is given. *)
Theorem X8_format_instructions_reach_no_prompt
    (hatter1 hatter2 : MadHatter) (library : Library) (agent_input : loc)
    (h1 h2 : Heap) (prefix instructions1 instructions2 suffix : string)
    (registry : list Tool) (h5 : Heap) :
  hooks_yield hatter1 h1 prefix instructions1 suffix registry h5 →
  hooks_yield hatter2 h2 prefix instructions2 suffix registry h5 →
  execute_agent hatter1 library agent_input h1
  = execute_agent hatter2 library agent_input h2.
Proof.
  intros Hhooks1 Hhooks2.
  rewrite (execute_agent_after_hooks _ _ _ _ _ _ _ _ _ Hhooks1).
  by rewrite (execute_agent_after_hooks _ _ _ _ _ _ _ _ _ Hhooks2).
Qed.

(** At work: two sets of format instructions, one empty. *)
Lemma X8_format_instructions_reach_no_prompt_witness :
  let library := scripted_library (Returns ("?", [])) (Returns "hello") in
  execute_agent (plain_hatter "You are the Cat. " "" "{input}" id [clock])
    library the_input start
  = execute_agent
      (plain_hatter "You are the Cat. " "Answer in rhymes." "{input}" id
         [clock])
      library the_input start.
Proof.
  intros library.
  apply (X8_format_instructions_reach_no_prompt _ _ library the_input
           start start "You are the Cat. " "" "Answer in rhymes." "{input}"
           [clock] start);
    apply hooks_yield_plain.
Defined.

(** ** The executor of a turn *)

(** X9: the executor of a turn is never built over an empty list of tools,
    and it is consistent: it is called on the reference the caller gave,
    the names the agent is allowed are the names of the tools the executor
    holds, in order, the prompt of the agent lists those same tools, and
    the executor is asked to return its intermediate steps. *)
Theorem X9_executor_is_consistent_and_has_tools
    (mad_hatter : MadHatter) (library : Library) (agent_input : loc)
    (h : Heap) :
  Forall (λ ev, ∃ agent_executor cycles,
            ev = AgentExecutorCall agent_executor agent_input cycles ∧
            tools agent_executor ≠ [] ∧
            allowed_tools (agent agent_executor)
              = map name (tools agent_executor) ∧
            (∃ tool_prompt,
               prompt (llm_chain (agent agent_executor))
                 = ToolPrompt tool_prompt ∧
               tool_template_tools tool_prompt = tools agent_executor) ∧
            return_intermediate_steps agent_executor = true)
    (executor_calls
       (trace_of (execute_agent mad_hatter library agent_input h))).
Proof.
  destruct (execute_agent_cases mad_hatter library agent_input h)
    as [(e & h' & ->)|(prefix & instructions & suffix & registry & h5 & _ & ->)];
    [by constructor|].
  rewrite choose_answer_executor_calls.
  destruct (bool_decide (0 < length registry)) eqn:Hlen; [|by constructor].
  constructor; [|by constructor].
  eexists _, _. split; [done|]. cbn. split.
  - intros ->. apply bool_decide_eq_true in Hlen. cbn in Hlen. lia.
  - split; [done|]. split; [by eexists|done].
Qed.

(** ** The prompt of the fallback *)

(** X10: in a turn whose hooks return, the chain is called at most once and
    its prompt is the prefix followed by the suffix, as the hooks answered
    them, over the four variables of the memory chain: whether the tool
    agent ran before or not, nothing of the tools, of the steps of the tool
    agent or of its output enters that prompt. *)
Theorem X10_fallback_prompt_is_prefix_and_suffix_only
    (mad_hatter : MadHatter) (library : Library) (agent_input : loc)
    (h : Heap) (prefix instructions suffix : string) (registry : list Tool)
    (h5 : Heap) :
  hooks_yield mad_hatter h prefix instructions suffix registry h5 →
  let calls :=
    chain_calls (trace_of (execute_agent mad_hatter library agent_input h)) in
  calls = [] ∨
  calls = [LLMChainCall {|
             prompt := PlainPrompt {|
               template := prefix +:+ suffix;
               input_variables :=
                 ["input"; "chat_history"; "episodic_memory";
                  "declarative_memory"]
             |};
             chain_verbose := true
           |} agent_input].
Proof.
  intros Hhooks calls. unfold calls.
  rewrite (execute_agent_after_hooks _ _ _ _ _ _ _ _ _ Hhooks).
  destruct (choose_answer_cases library agent_input prefix suffix registry h5)
    as [[_ ->]|(_ & r & h1 & cycles & _ & Hrun)].
  { right. by rewrite execute_memory_chain_trace. }
  cbn zeta in Hrun. destruct r as [out|e]; [|left; by rewrite Hrun].
  destruct (h1 !! out) as [record|]; [|left; by rewrite Hrun].
  destruct (record !! "output") as [output|]; [|left; by rewrite Hrun].
  destruct (value_neqb output (VStr "?")); [left; by rewrite Hrun|].
  right. rewrite Hrun, trace_of_after, chain_calls_app.
  by rewrite execute_memory_chain_trace.
Qed.

(** At work: the tool agent gives up after one step on the clock; the
    prompt of the fallback is the prefix and the suffix. *)
Lemma X10_fallback_prompt_is_prefix_and_suffix_only_witness :
  let calls :=
    chain_calls (trace_of
      (execute_agent
         (plain_hatter "You are the Cat. " "" "{input}" id [clock])
         (scripted_library (Returns ("?", [a_step])) (Returns "hello"))
         the_input start)) in
  calls = [] ∨
  calls = [LLMChainCall {|
             prompt := PlainPrompt {|
               template := "You are the Cat. " +:+ "{input}";
               input_variables :=
                 ["input"; "chat_history"; "episodic_memory";
                  "declarative_memory"]
             |};
             chain_verbose := true
           |} the_input].
Proof.
  apply (X10_fallback_prompt_is_prefix_and_suffix_only
    (plain_hatter "You are the Cat. " "" "{input}" id [clock])
    (scripted_library (Returns ("?", [a_step])) (Returns "hello"))
    the_input start "You are the Cat. " "" "{input}" [clock] start).
  apply hooks_yield_plain.
Defined.
